(** * video2text: the detection pipeline, embedded and verified

    A shallow embedding of the parts of the [video_processor] package that
    carry state, thresholds and ordering: [JsonWriter] (io/writer.py),
    [FrameExtractor] (io/extractor.py) and the result loop of
    [PaddleOCRWrapper.recognize] (ocr/paddle.py).

    Conventions of the embedding.
    - A Python [float] is an exact rational ([Q]); [==], [<], [>=] on floats
      are [Qeq_bool], [Qle_bool] and their negations.  There is no NaN.
    - A Python [int] is [Z]; [len] of a list is [Z.of_nat (length _)].
    - A Python [str] is a [string] whose characters are code points below 256.
    - A [dict] used as a record is a [Record]; an [OrderedDict] is an
      association list in insertion order.
    - Printing and file-system effects are left out; what a method writes to a
      file is returned as a list of lines. *)

From Stdlib Require Import ZArith QArith Qround Qabs Lqa Lia.
From Stdlib Require Import List Bool Ascii String Sorted SetoidList.
Import ListNotations.

Local Open Scope Z_scope.

(** ** Python numbers *)

Module PyNum.

(** [round(x)]: nearest integer, ties to even. *)
Definition round_half_even (x : Q) : Z :=
  let f := Qfloor x in
  match Qcompare (x - inject_Z f) (1 # 2) with
  | Lt => f
  | Gt => f + 1
  | Eq => if Z.even f then f else f + 1
  end.

(** [round(x, ndigits)] on the exact value of [x]. *)
Definition round_nd (x : Q) (ndigits : nat) : Q :=
  let p := Pos.pow 10 (Pos.of_nat ndigits) in
  match ndigits with
  | O => inject_Z (round_half_even x)
  | S _ => Qmake (round_half_even (x * inject_Z (Zpos p))) p
  end.

(** [int(x)]: truncation toward zero. *)
Definition int_of (x : Q) : Z := Z.quot (Qnum x) (Zpos (Qden x)).

(** [a >= b], [a > b], [a < b] on floats. *)
Definition ge (a b : Q) : bool := Qle_bool b a.
Definition gt (a b : Q) : bool := negb (Qle_bool a b).
Definition lt (a b : Q) : bool := negb (Qle_bool b a).

Definition len {A : Type} (l : list A) : Z := Z.of_nat (length l).

End PyNum.

(** ** Python strings *)

Module PyStr.

Local Open Scope string_scope.

(** [str.isspace] on one character (code points below 256). *)
Definition is_space (c : ascii) : bool :=
  let n := nat_of_ascii c in
  (((9 <=? n) && (n <=? 13)) || ((28 <=? n) && (n <=? 32))
   || (n =? 133) || (n =? 160))%nat.

Fixpoint lstrip (s : string) : string :=
  match s with
  | EmptyString => EmptyString
  | String c r => if is_space c then lstrip r else s
  end.

(** Drops trailing white space: a character is kept when it is not white
    space or when something is kept after it. *)
Fixpoint rstrip (s : string) : string :=
  match s with
  | EmptyString => EmptyString
  | String c r =>
      match rstrip r with
      | EmptyString => if is_space c then EmptyString else String c EmptyString
      | r' => String c r'
      end
  end.

(** [s.strip()] *)
Definition strip (s : string) : string := rstrip (lstrip s).

(** Truth value of a string: [not s] holds for the empty string only. *)
Definition is_empty (s : string) : bool :=
  match s with EmptyString => true | _ => false end.

(** [sep.join(l)] *)
Fixpoint join (sep : string) (l : list string) : string :=
  match l with
  | [] => ""
  | [x] => x
  | x :: r => x ++ sep ++ join sep r
  end.

Definition digit (n : nat) : ascii := ascii_of_nat (48 + n).

(** Decimal digits of a non-negative integer, most significant first. *)
Fixpoint digits_fuel (fuel : nat) (n : Z) (acc : string) : string :=
  match fuel with
  | O => acc
  | S fuel' =>
      let acc' := String (digit (Z.to_nat (n mod 10))) acc in
      if (n / 10 =? 0)%Z then acc' else digits_fuel fuel' (n / 10) acc'
  end.

Definition digits (n : Z) : string := digits_fuel (S (Z.to_nat n)) n "".

Fixpoint zeros (k : nat) : string :=
  match k with O => "" | S k' => String "0"%char (zeros k') end.

(** [format(n, '0{width}d')]: zero padding that counts the sign. *)
Definition format_0d (width : nat) (n : Z) : string :=
  if (n <? 0)%Z then
    let d := digits (- n) in
    String "-"%char (zeros (width - 1 - String.length d) ++ d)
  else
    let d := digits n in
    zeros (width - String.length d) ++ d.

End PyStr.

(** ** The library functions used by remove_duplicates, for concrete runs

    [difflib] and [str.lower] are not part of the repository; the model of
    [remove_duplicates] takes them as parameters.  The two functions below
    instantiate the parameters when a run is evaluated on concrete texts:
    [lower] on the letters A to Z, and the ratio [2*M/T] of
    [SequenceMatcher] where [M] counts the characters of the matching
    blocks (longest block first, then recursively to its left and to its
    right), as difflib computes it for texts shorter than 200 characters. *)

Module Difflib.

Definition lower_char (c : ascii) : ascii :=
  let n := nat_of_ascii c in
  if ((65 <=? n) && (n <=? 90))%nat then ascii_of_nat (n + 32) else c.

Fixpoint lower (s : string) : string :=
  match s with
  | EmptyString => EmptyString
  | String c r => String (lower_char c) (lower r)
  end.

Fixpoint common_prefix (a b : list ascii) : nat :=
  match a, b with
  | x :: a', y :: b' => if Ascii.eqb x y then S (common_prefix a' b') else O
  | _, _ => O
  end.

(** Longest block of [b] matching a prefix of [a], earliest in [b]. *)
Fixpoint best_in_b (a b : list ascii) (j : nat) (best : nat * nat)
    : nat * nat :=
  match b with
  | [] => best
  | _ :: b' =>
      let k := common_prefix a b in
      best_in_b a b' (S j) (if (snd best <? k)%nat then (j, k) else best)
  end.

(** [find_longest_match]: start in [a], start in [b], size; the earliest
    in [a] among the longest, then the earliest in [b]. *)
Fixpoint best_in_a (a b : list ascii) (i : nat) (best : nat * nat * nat)
    : nat * nat * nat :=
  match a with
  | [] => best
  | _ :: a' =>
      let '(j, k) := best_in_b a b O (O, O) in
      best_in_a a' b (S i) (if (snd best <? k)%nat then (i, j, k) else best)
  end.

Definition find_longest_match (a b : list ascii) : nat * nat * nat :=
  best_in_a a b O (O, O, O).

Fixpoint matches (fuel : nat) (a b : list ascii) : nat :=
  match fuel with
  | O => O
  | S fuel' =>
      let '(i, j, k) := find_longest_match a b in
      match k with
      | O => O
      | S _ =>
          (k + matches fuel' (firstn i a) (firstn j b)
             + matches fuel' (skipn (i + k) a) (skipn (j + k) b))%nat
      end
  end.

Definition ratio (a b : string) : Q :=
  let la := list_ascii_of_string a in
  let lb := list_ascii_of_string b in
  let total := (length la + length lb)%nat in
  match total with
  | O => 1%Q
  | S _ => Qmake (2 * Z.of_nat (matches (S (length la)) la lb))
                 (Pos.of_nat total)
  end.

End Difflib.

(** ** io/writer.py: JsonWriter *)

Module Writer.

Import PyNum PyStr.

Record BBox := mkBBox {
  x1 : Z; y1 : Z; x2 : Z; y2 : Z; width : Z; height : Z
}.

(** One entry of [self.data]. *)
Record Detection := mkDetection {
  timestamp : Q;
  bbox : BBox;
  text : string;
  confidence : Q;
  text_length : Z;
  detection_id : Z
}.

Record Metadata := mkMetadata {
  created_at : string;
  total_detections : Z;
  processing_info : list (string * string)
}.

Record JsonWriter := mkJsonWriter {
  output_path : string;
  data : list Detection;
  metadata : Metadata
}.

Definition set_total (m : Metadata) (n : Z) : Metadata :=
  mkMetadata (created_at m) n (processing_info m).

(** [JsonWriter.__init__]; [now] is [datetime.now().isoformat()]. *)
Definition init (now : string) (output_path : string) : JsonWriter :=
  mkJsonWriter output_path [] (mkMetadata now 0 []).

(** The dictionary built by [add]. *)
Definition make_detection (self : JsonWriter) (timestamp : Q)
    (bbox : Q * Q * Q * Q) (text : string) (confidence : Q) : Detection :=
  let '(x1, y1, x2, y2) := bbox in
  mkDetection
    (round_nd timestamp 3)
    (mkBBox (int_of x1) (int_of y1) (int_of x2) (int_of y2)
            (int_of (x2 - x1)) (int_of (y2 - y1)))
    (strip text)
    (round_nd confidence 4)
    (Z.of_nat (String.length (strip text)))
    (len (data self) + 1).

(** [JsonWriter.add] *)
Definition add (self : JsonWriter) (timestamp : Q) (bbox : Q * Q * Q * Q)
    (text : string) (confidence : Q) : JsonWriter :=
  let detection := make_detection self timestamp bbox text confidence in
  mkJsonWriter (output_path self)
               (data self ++ [detection])
               (set_total (metadata self) (total_detections (metadata self) + 1)).

(** [JsonWriter.filter_by_confidence]; the second component is
    [filtered_count], the number the method reports. *)
Definition filter_by_confidence (self : JsonWriter) (min_confidence : Q)
    : JsonWriter * Z :=
  let original_count := len (data self) in
  let data' := filter (fun d => ge (confidence d) min_confidence) (data self) in
  let filtered_count := original_count - len data' in
  (mkJsonWriter (output_path self) data'
     (if filtered_count >? 0
      then set_total (metadata self) (len data')
      else metadata self),
   filtered_count).

(** Equality of two detection dictionaries ([==] on dicts: numbers by
    value, strings by content). *)
Definition bbox_eqb (a b : BBox) : bool :=
  (x1 a =? x1 b) && (y1 a =? y1 b) && (x2 a =? x2 b) && (y2 a =? y2 b)
  && (width a =? width b) && (height a =? height b).

Definition detection_eqb (a b : Detection) : bool :=
  Qeq_bool (timestamp a) (timestamp b)
  && bbox_eqb (bbox a) (bbox b)
  && String.eqb (text a) (text b)
  && Qeq_bool (confidence a) (confidence b)
  && (text_length a =? text_length b)
  && (detection_id a =? detection_id b).

(** [l.remove(x)]: drops the first element equal to [x].  Python raises
    [ValueError] when there is none; [remove_duplicates] only removes an
    element it has just read from the same list (see [first_match_In]),
    so that branch is returned as the unchanged list. *)
Fixpoint list_remove (x : Detection) (l : list Detection) : list Detection :=
  match l with
  | [] => []
  | y :: r => if detection_eqb y x then r else y :: list_remove x r
  end.

Section RemoveDuplicates.

(** [str.lower] and [difflib.SequenceMatcher(None, a, b).ratio()] come
    from the Python library and are parameters here. *)
Variable lower : string -> string.
Variable ratio : string -> string -> Q.

Variables time_threshold similarity_threshold : Q.

(** The test made on one [existing] entry: inside the time window and
    similar enough. *)
Definition is_duplicate_of (current existing : Detection) : bool :=
  let time_diff := Qabs (timestamp current - timestamp existing) in
  if gt time_diff time_threshold then false
  else
    let similarity := ratio (lower (text current)) (lower (text existing)) in
    ge similarity similarity_threshold.

(** The inner [for existing in filtered_data] loop up to its [break]:
    the entry it stops at, if any. *)
Fixpoint first_match (current : Detection) (filtered_data : list Detection)
    : option Detection :=
  match filtered_data with
  | [] => None
  | existing :: rest =>
      let time_diff := Qabs (timestamp current - timestamp existing) in
      if gt time_diff time_threshold then first_match current rest
      else
        let similarity :=
          ratio (lower (text current)) (lower (text existing)) in
        if ge similarity similarity_threshold then Some existing
        else first_match current rest
  end.

(** One round of the outer [for current in self.data] loop. *)
Definition dedup_step (filtered_data : list Detection) (current : Detection)
    : list Detection :=
  match first_match current filtered_data with
  | Some existing =>
      if gt (confidence current) (confidence existing)
      then list_remove existing filtered_data ++ [current]
      else filtered_data
  | None => filtered_data ++ [current]
  end.

Definition dedup_loop (data : list Detection) : list Detection :=
  fold_left dedup_step data [].

(** [JsonWriter.remove_duplicates]; the second component is
    [removed_count] ([0] on the early return). *)
Definition remove_duplicates (self : JsonWriter) : JsonWriter * Z :=
  if len (data self) <=? 1 then (self, 0)
  else
    let filtered_data := dedup_loop (data self) in
    let removed_count := len (data self) - len filtered_data in
    (mkJsonWriter (output_path self) filtered_data
       (if removed_count >? 0
        then set_total (metadata self) (len filtered_data)
        else metadata self),
     removed_count).

End RemoveDuplicates.

(** [JsonWriter._format_mmss] *)
Definition _format_mmss (seconds : option Q) (show_ms : bool) : string :=
  match seconds with
  | None => "[00:00]"%string
  | Some seconds =>
      let total_ms := round_half_even (seconds * 1000) in
      let mm := (total_ms / 1000) / 60 in
      let ss := (total_ms / 1000) mod 60 in
      if show_ms then
        let ms := total_ms mod 1000 in
        ("[" ++ format_0d 2 mm ++ ":" ++ format_0d 2 ss ++ "."
             ++ format_0d 3 ms ++ "]")%string
      else ("[" ++ format_0d 2 mm ++ ":" ++ format_0d 2 ss ++ "]")%string
  end.

(** [sorted(l, key=lambda x: x["timestamp"])]: the sort is stable, an
    element goes in front of the first one whose key is not smaller. *)
Fixpoint insert_by_timestamp (x : Detection) (l : list Detection)
    : list Detection :=
  match l with
  | [] => [x]
  | y :: r =>
      if lt (timestamp y) (timestamp x)
      then y :: insert_by_timestamp x r
      else x :: y :: r
  end.

Definition sorted_by_timestamp (l : list Detection) : list Detection :=
  fold_right insert_by_timestamp [] l.

(** The [OrderedDict] of [export_grouped_text]: keys in insertion order. *)
Definition Buckets := list (Q * list string).

(** [ts in buckets] *)
Fixpoint bucket_mem (ts : Q) (buckets : Buckets) : bool :=
  match buckets with
  | [] => false
  | (k, _) :: r => Qeq_bool k ts || bucket_mem ts r
  end.

(** [buckets[ts].append(txt)] *)
Fixpoint bucket_append (ts : Q) (txt : string) (buckets : Buckets) : Buckets :=
  match buckets with
  | [] => []
  | (k, texts) :: r =>
      if Qeq_bool k ts then (k, texts ++ [txt]) :: r
      else (k, texts) :: bucket_append ts txt r
  end.

(** Body of the loop that fills the buckets. *)
Definition bucket_step (buckets : Buckets) (d : Detection) : Buckets :=
  let ts := timestamp d in
  let txt := strip (text d) in
  if is_empty txt then buckets
  else
    let buckets := if bucket_mem ts buckets then buckets
                   else buckets ++ [(ts, [])] in
    bucket_append ts txt buckets.

Definition fill_buckets (l : list Detection) : Buckets :=
  fold_left bucket_step l [].

(** [JsonWriter.export_grouped_text]: the lines written to the text file,
    each of them followed by a newline there. *)
Definition export_grouped_text (self : JsonWriter) (sep : string)
    (show_ms : bool) : list string :=
  let buckets := fill_buckets (sorted_by_timestamp (data self)) in
  map (fun '(ts, texts) =>
         let stamp := _format_mmss (Some ts) show_ms in
         (stamp ++ " - " ++ join sep texts)%string)
      buckets.

(** *** Sequences of calls on one store *)

Inductive Call :=
| CallAdd (timestamp : Q) (bbox : Q * Q * Q * Q) (text : string) (confidence : Q)
| CallFilter (min_confidence : Q)
| CallDedup (time_threshold similarity_threshold : Q).

Section Calls.

Variable lower : string -> string.
Variable ratio : string -> string -> Q.

Definition call (self : JsonWriter) (c : Call) : JsonWriter :=
  match c with
  | CallAdd ts bbox txt conf => add self ts bbox txt conf
  | CallFilter m => fst (filter_by_confidence self m)
  | CallDedup t s => fst (remove_duplicates lower ratio t s self)
  end.

Definition run (self : JsonWriter) (calls : list Call) : JsonWriter :=
  fold_left call calls self.

(** The detections created by the calls to [add], in call order. *)
Fixpoint created (self : JsonWriter) (calls : list Call) : list Detection :=
  match calls with
  | [] => []
  | c :: rest =>
      match c with
      | CallAdd ts bbox txt conf =>
          make_detection self ts bbox txt conf :: created (call self c) rest
      | _ => created (call self c) rest
      end
  end.

(** No call of the sequence takes a detection out of the store. *)
Fixpoint removes_nothing (self : JsonWriter) (calls : list Call) : bool :=
  match calls with
  | [] => true
  | c :: rest =>
      (len (data self) <=? len (data (call self c)))
      && removes_nothing (call self c) rest
  end.

Variables time_threshold similarity_threshold : Q.

(** [current] takes the place of an accepted entry. *)
Definition replaces (filtered_data : list Detection) (current : Detection)
    : bool :=
  match first_match lower ratio time_threshold similarity_threshold
                    current filtered_data with
  | Some existing => gt (confidence current) (confidence existing)
  | None => false
  end.

(** The pass over [data], started from [filtered_data], never replaces
    an accepted entry. *)
Fixpoint no_replacement_from (filtered_data data : list Detection) : bool :=
  match data with
  | [] => true
  | current :: rest =>
      negb (replaces filtered_data current)
      && no_replacement_from
           (dedup_step lower ratio time_threshold similarity_threshold
                       filtered_data current) rest
  end.

Definition no_replacement (data : list Detection) : bool :=
  no_replacement_from [] data.

End Calls.

End Writer.


(** ** ocr/paddle.py: the result loop of PaddleOCRWrapper.recognize *)

Module Paddle.

Import PyNum PyStr.

Definition Point := (Q * Q)%type.

(** A detected polygon; the detector reports at least one corner. *)
Record Poly := mkPoly { corner : Point; corners : list Point }.

(** The three parallel lists of one page result. *)
Record Res := mkRes {
  dt_polys : list Poly;
  rec_texts : list string;
  rec_scores : list Q
}.

(** A page is a dictionary that either carries its result under the key
    ["res"] or is the result itself. *)
Record Page := mkPage { res_entry : option Res; own : Res }.

(** [page.get("res", page)] *)
Definition page_res (page : Page) : Res :=
  match res_entry page with
  | Some r => r
  | None => own page
  end.

(** [min(xs)] and [max(xs)] of a list with first element [x]. *)
Definition min_of (x : Q) (xs : list Q) : Q :=
  fold_left (fun m y => if lt y m then y else m) xs x.

Definition max_of (x : Q) (xs : list Q) : Q :=
  fold_left (fun m y => if gt y m then y else m) xs x.

Definition RawDetection := ((Q * Q * Q * Q) * string * Q)%type.

(** Body of [for poly, txt, score in zip(polys, texts, scores)]: what one
    triple yields.  The minimum and maximum run over all corners, starting
    from the first one. *)
Definition gate (poly : Poly) (txt : string) (score : Q) : list RawDetection :=
  if is_empty txt || lt score (30 # 100) then []
  else
    let xs := map fst (corners poly) in
    let ys := map snd (corners poly) in
    let bbox := (min_of (fst (corner poly)) xs, min_of (snd (corner poly)) ys,
                 max_of (fst (corner poly)) xs, max_of (snd (corner poly)) ys) in
    [(bbox, strip txt, score)].

Definition recognize_page (page : Page) : list RawDetection :=
  let res := page_res page in
  flat_map (fun '(poly, (txt, score)) => gate poly txt score)
           (combine (dt_polys res) (combine (rec_texts res) (rec_scores res))).

(** [recognize], from the result of [self.ocr.predict]: [None] stands for
    an engine that is missing or whose call raised, which yields nothing. *)
Definition recognize (predicted : option (list Page)) : list RawDetection :=
  match predicted with
  | None => []
  | Some pages => flat_map recognize_page pages
  end.

End Paddle.

(** ** engine.py: what run_pipeline stores for one sampled frame *)

Module Engine.

(** [for bbox, txt, conf in results: writer.add(ts, bbox, txt, conf)] *)
Definition store_results (writer : Writer.JsonWriter) (ts : Q)
    (results : list Paddle.RawDetection) : Writer.JsonWriter :=
  fold_left (fun w '(bbox, txt, conf) => Writer.add w ts bbox txt conf)
            results writer.

End Engine.

(** ** io/extractor.py: FrameExtractor *)

Module Extractor.

Inductive exn := FileNotFoundError.

Inductive result (A : Type) :=
| Ok (a : A)
| Raise (e : exn).
Arguments Ok {A} a.
Arguments Raise {A} e.

Section WithFrames.

(** Image buffers are opaque. *)
Variable Frame : Type.

(** What the decoder finds in a file: the frames in decode order, each
    with the playback position (milliseconds) reported once it is read. *)
Record Video := mkVideo {
  video_fps : Q;
  video_frame_count : Z;
  video_frames : list (Frame * Q)
}.

(** The files that can be opened. *)
Variable videos : string -> option Video.

(** A [cv2.VideoCapture]: the frames not yet read. *)
Record VideoCapture := mkCapture {
  is_opened : bool;
  capture_fps : Q;
  capture_frame_count : Z;
  pending : list (Frame * Q)
}.

(** [cv2.VideoCapture(path)] *)
Definition open_capture (path : string) : VideoCapture :=
  match videos path with
  | Some v => mkCapture true (video_fps v) (video_frame_count v) (video_frames v)
  | None => mkCapture false 0 0 []
  end.

Record FrameExtractor := mkExtractor {
  video_path : string;
  step : Z;
  cap : option VideoCapture;
  fps : Q;
  frame_count : Z;
  duration : Q
}.

(** [FrameExtractor._init_video] *)
Definition _init_video (self : FrameExtractor) : result FrameExtractor :=
  let c := open_capture (video_path self) in
  if negb (is_opened c) then Raise FileNotFoundError
  else
    let fps := capture_fps c in
    let frame_count := capture_frame_count c in
    let duration := if PyNum.gt fps 0
                    then (inject_Z frame_count / fps)%Q else 0%Q in
    Ok (mkExtractor (video_path self) (step self) (Some c)
                    fps frame_count duration).

(** [FrameExtractor.__init__] *)
Definition init (video_path : string) (step : Z) : result FrameExtractor :=
  _init_video (mkExtractor video_path (Z.max 1 step) None 0 0 0).

(** [FrameExtractor._cleanup] *)
Definition _cleanup (self : FrameExtractor) : FrameExtractor :=
  mkExtractor (video_path self) (step self) None
              (fps self) (frame_count self) (duration self).

Definition FrameSample := (Z * Frame * Q)%type.

(** The [while True] loop of [__iter__]: [self.cap.read()] takes the next
    pending frame, and fails when there is none left. *)
Fixpoint iter_loop (step : Z) (pending : list (Frame * Q)) (frame_idx : Z)
    : list FrameSample :=
  match pending with
  | [] => []
  | (frame, timestamp_ms) :: rest =>
      let yielded :=
        if frame_idx mod step =? 0
        then [(frame_idx, frame, (timestamp_ms / 1000)%Q)]
        else [] in
      yielded ++ iter_loop step rest (frame_idx + 1)
  end.

(** [FrameExtractor.__iter__], consumed to its end: the samples yielded
    and the extractor left behind. *)
Definition iter (self : FrameExtractor)
    : result (list FrameSample * FrameExtractor) :=
  let opened :=
    match cap self with
    | Some c => if is_opened c then Ok self else _init_video self
    | None => _init_video self
    end in
  match opened with
  | Raise e => Raise e
  | Ok self' =>
      match cap self' with
      | Some c => Ok (iter_loop (step self') (pending c) 0, _cleanup self')
      | None => Ok ([], _cleanup self') (* not reached: [opened] has a capture *)
      end
  end.

End WithFrames.

End Extractor.

(** ** io/writer.py: statistics, metadata and the plain text export *)

Module Report.

Import PyNum PyStr Writer.

(** [d[key] = value] on a dictionary kept as an association list: the value
    of an existing key is replaced in place, a new key goes to the end. *)
Fixpoint dict_set (key value : string) (d : list (string * string))
    : list (string * string) :=
  match d with
  | [] => [(key, value)]
  | (k, v) :: r =>
      if String.eqb k key then (k, value) :: r
      else (k, v) :: dict_set key value r
  end.

(** [d.get(key)] *)
Fixpoint dict_get (key : string) (d : list (string * string)) : option string :=
  match d with
  | [] => None
  | (k, v) :: r => if String.eqb k key then Some v else dict_get key r
  end.

(** [JsonWriter.add_metadata] *)
Definition add_metadata (self : JsonWriter) (key value : string) : JsonWriter :=
  mkJsonWriter (output_path self) (data self)
    (mkMetadata (created_at (metadata self))
                (total_detections (metadata self))
                (dict_set key value (processing_info (metadata self)))).

Record ConfidenceStats := mkConfidenceStats {
  confidence_min : Q; confidence_max : Q; confidence_avg : Q
}.

Record TextLengthStats := mkTextLengthStats {
  text_length_min : Z; text_length_max : Z; text_length_avg : Q
}.

Record TimeRange := mkTimeRange {
  time_start : Q; time_end : Q; time_duration : Q
}.

Record Stats := mkStats {
  stats_total_detections : Z;
  confidence_stats : ConfidenceStats;
  text_length_stats : TextLengthStats;
  time_range : TimeRange;
  high_confidence_count : Z;
  unique_texts : Z
}.

(** What [get_statistics] returns: the message dictionary of an empty
    store, or the statistics. *)
Inductive Statistics :=
| NoDataYet
| StatsOf (stats : Stats).

(** [sum(l)] of floats and of integers. *)
Definition sum_Q (l : list Q) : Q := fold_left Qplus l 0%Q.
Definition sum_Z (l : list Z) : Z := fold_left Z.add l 0.

(** [len(set(l))] of strings. *)
Definition count_distinct (l : list string) : Z := len (nodup string_dec l).

(** [JsonWriter.get_statistics] *)
Definition get_statistics (self : JsonWriter) : Statistics :=
  match data self with
  | [] => NoDataYet
  | d :: rest =>
      let confidences := map confidence (data self) in
      let text_lengths := map text_length (data self) in
      let timestamps := map timestamp (data self) in
      StatsOf
        (mkStats
           (len (data self))
           (mkConfidenceStats
              (Paddle.min_of (confidence d) (map confidence rest))
              (Paddle.max_of (confidence d) (map confidence rest))
              (sum_Q confidences / inject_Z (len confidences))%Q)
           (mkTextLengthStats
              (fold_left Z.min (map text_length rest) (text_length d))
              (fold_left Z.max (map text_length rest) (text_length d))
              (inject_Z (sum_Z text_lengths) / inject_Z (len text_lengths))%Q)
           (mkTimeRange
              (Paddle.min_of (timestamp d) (map timestamp rest))
              (Paddle.max_of (timestamp d) (map timestamp rest))
              (Paddle.max_of (timestamp d) (map timestamp rest)
               - Paddle.min_of (timestamp d) (map timestamp rest))%Q)
           (len (filter (fun c => gt c (8 # 10)) confidences))
           (count_distinct (map text (data self))))
  end.

Section TextOnly.

(** [format(x, '{width}.{precision}f')], from the Python library. *)
Variable format_fixed : nat -> nat -> Q -> string.

(** The word between the text and the confidence; its second letter is the
    code point 252. *)
Definition guven : string :=
  String "g" (String (ascii_of_nat 252) "ven").

(** One line of [export_text_only], without its newline. *)
Definition text_only_line (detection : Detection) : string :=
  ("[" ++ format_fixed 7 2 (timestamp detection) ++ "s] " ++ text detection
       ++ " (" ++ guven ++ ": " ++ format_fixed 0 3 (confidence detection)
       ++ ")")%string.

(** [JsonWriter.export_text_only]: the lines written. *)
Definition export_text_only (self : JsonWriter) : list string :=
  map text_only_line (sorted_by_timestamp (data self)).

End TextOnly.

End Report.

(** ** io/simple_db.py *)

Module SimpleDb.

Import PyNum PyStr.

(** [to_mmss] *)
Definition to_mmss (ts : option Q) : string :=
  let ts := match ts with None => 0%Q | Some t => t end in
  let mm := int_of ts / 60 in
  let ss := int_of ts mod 60 in
  (format_0d 2 mm ++ ":" ++ format_0d 2 ss)%string.

(** A row of the table [ocr_texts_simple]. *)
Record Row := mkRow {
  file_name : string;
  row_text : string;
  topic : option string;
  duration_sec : string;
  row_confidence : option Q
}.

(** [SimpleRowWriter.insert_detection], on the rows of the table. *)
Definition insert_detection (table : list Row) (file_name text : string)
    (ts_sec : Q) (confidence : option Q) (topic : option string) : list Row :=
  if is_empty text || String.eqb (strip text) "" then table
  else
    let mmss := to_mmss (Some ts_sec) in
    table ++ [mkRow file_name (strip text) topic mmss confidence].

End SimpleDb.

(** ** engine.py: run_pipeline *)

Module Pipeline.

Import PyNum PyStr.

Section WithEngine.

Variable Frame : Type.
Variable videos : string -> option (Extractor.Video Frame).

(** [self.ocr.predict] after [preprocess_frame]: the pages found on a frame,
    [None] when the engine is missing or its call raises. *)
Variable predict : Frame -> option (list Paddle.Page).

(** [datetime.now().isoformat()] when the writer is made. *)
Variable now : string.

Record Progress := mkProgress {
  writer : Writer.JsonWriter;
  frame_count : Z;
  text_count : Z
}.

(** Body of [for idx, frame, ts in extractor]. *)
Definition process_sample (p : Progress) (sample : Extractor.FrameSample Frame)
    : Progress :=
  let '(idx, frame, ts) := sample in
  let results := Paddle.recognize (predict frame) in
  mkProgress (Engine.store_results (writer p) ts results)
             (frame_count p + 1)
             (text_count p + len results).

(** [run_pipeline]: the counters, the store, and the lines of the grouped
    text file. *)
Definition run_pipeline (video_path out_path : string) (step : Z)
    : Extractor.result (Progress * list string) :=
  match Extractor.init Frame videos video_path step with
  | Extractor.Raise e => Extractor.Raise e
  | Extractor.Ok extractor =>
      let new_writer := Writer.init now out_path in
      match Extractor.iter Frame videos extractor with
      | Extractor.Raise e => Extractor.Raise e
      | Extractor.Ok (samples, _) =>
          let p := fold_left process_sample samples (mkProgress new_writer 0 0) in
          Extractor.Ok (p, Writer.export_grouped_text (writer p) " | " false)
      end
  end.

(** [run_pipeline_advanced]: the two extra settings are not used. *)
Definition run_pipeline_advanced (video_path out_path : string) (step : Z)
    (min_confidence : Q) (filter_duplicates : bool)
    : Extractor.result (Progress * list string) :=
  run_pipeline video_path out_path step.

End WithEngine.

End Pipeline.

(** ** cli.py *)

Module Cli.

Import PyStr.

Record Args := mkArgs {
  video : string;
  out : string;
  step : Z;
  cpu : bool;
  verbose : bool
}.

Inductive InputError :=
| VideoNotFound (video : string)
| OutDirNotCreated (out_dir : string)
| StepNotPositive.

Section WithFiles.

Variable Frame : Type.
Variable videos : string -> option (Extractor.Video Frame).
Variable predict : Frame -> option (list Paddle.Page).
Variable now : string.

(** [os.path.exists], [os.path.dirname], and whether [os.makedirs]
    succeeds. *)
Variable path_exists : string -> bool.
Variable dirname : string -> string.
Variable makedirs : string -> bool.

(** [validate_inputs] *)
Definition validate_inputs (args : Args) : list InputError :=
  let errors := [] in
  let errors :=
    if negb (path_exists (video args))
    then errors ++ [VideoNotFound (video args)] else errors in
  let out_dir := dirname (out args) in
  let errors :=
    if negb (is_empty out_dir) && negb (path_exists out_dir)
    then (if makedirs out_dir then errors
          else errors ++ [OutDirNotCreated out_dir])
    else errors in
  let errors :=
    if step args <=? 0 then errors ++ [StepNotPositive] else errors in
  errors.

(** [main], from the parsed arguments: the exit code. *)
Definition main (args : Args) : Z :=
  match validate_inputs args with
  | _ :: _ => 1
  | [] =>
      match Pipeline.run_pipeline Frame videos predict now
              (video args) (out args) (step args) with
      | Extractor.Ok _ => 0
      | Extractor.Raise Extractor.FileNotFoundError => 1
      end
  end.

End WithFiles.

End Cli.

(** * Vocabulary of the statements *)

Import PyNum PyStr Writer.

(** Decision "confidence strictly below [c]", independent of the code's
    comparison. *)
Definition below (c : Q) (d : Detection) : bool :=
  if Qlt_le_dec (confidence d) c then true else false.

(** The recorded count agrees with the list held. *)
Definition count_consistent (w : JsonWriter) : Prop :=
  total_detections (metadata w) = len (data w).

(** A store to run the calls on. *)
Definition new_store : JsonWriter := init "2025-01-01T00:00:00" "out.json".

Definition unit_box : Q * Q * Q * Q := (0, 0, 10, 10)%Q.

(** Two detections are added, the filter takes the second out, a third one
    is added. *)
Definition add_filter_add : list Call :=
  [CallAdd 1 unit_box "a" (9 # 10); CallAdd 2 unit_box "b" (2 # 10);
   CallFilter (5 # 10); CallAdd 3 unit_box "c" (9 # 10)].

Section DedupVocabulary.

Variable lower : string -> string.
Variable ratio : string -> string -> Q.
Variables time_threshold similarity_threshold : Q.

(** [x] lies within the time window of [c] and its text is similar enough,
    case ignored. *)
Definition duplicates (c x : Detection) : Prop :=
  (Qabs (timestamp c - timestamp x) <= time_threshold)%Q
  /\ (similarity_threshold <= ratio (lower (text c)) (lower (text x)))%Q.

(** No detection of [l] duplicates one of [acc] or an earlier one of [l]. *)
Fixpoint settled_from (acc l : list Detection) : bool :=
  match l with
  | [] => true
  | c :: r =>
      match first_match lower ratio time_threshold similarity_threshold c acc with
      | Some _ => false
      | None => settled_from (acc ++ [c]) r
      end
  end.

End DedupVocabulary.

(** The scenario of the specification: "hello" at 1.00 with confidence 0.6,
    then "hallo" at 1.40 with confidence 0.9. *)
Definition hello_store : JsonWriter :=
  add new_store 1 unit_box "hello" (6 # 10).

Definition hello_hallo_store : JsonWriter :=
  add hello_store (14 # 10) unit_box "hallo" (9 # 10).

(** Three detections of the same text at 0 s, 2 s and 1 s; the last one has
    the highest confidence. *)
Definition three_x_store : JsonWriter :=
  add (add (add new_store 0 unit_box "x" (5 # 10))
           2 unit_box "x" (5 # 10))
      1 unit_box "x" (9 # 10).

(** The same text twice, the second time with a lower confidence. *)
Definition two_x_store : JsonWriter :=
  add (add new_store 1 unit_box "x" (9 # 10)) (14 # 10) unit_box "x" (6 # 10).

Definition hello_detection : Detection :=
  make_detection new_store 1 unit_box "hello" (6 # 10).

Definition hallo_detection : Detection :=
  make_detection hello_store (14 # 10) unit_box "hallo" (9 # 10).

(** A page with one quadrilateral whose recognised text is three blanks,
    scored 0.9. *)
Definition blank_page : Paddle.Page :=
  Paddle.mkPage None
    (Paddle.mkRes
       [Paddle.mkPoly (0, 0)%Q [(10, 0)%Q; (10, 10)%Q; (0, 10)%Q]]
       ["   "%string] [9 # 10]).

(** Index of a sample. *)
Definition sample_index {Frame : Type} (x : Extractor.FrameSample Frame) : Z :=
  fst (fst x).

(** [ceil(n / s)] for a positive [s]. *)
Definition ceil_div (n s : Z) : Z := (n + s - 1) / s.

(** What a second [for ... in extractor] yields once a first one has run to
    its end. *)
Definition second_iteration {Frame : Type} (videos : string -> option (Extractor.Video Frame))
    (self : Extractor.FrameExtractor Frame)
    : Extractor.result (list (Extractor.FrameSample Frame)) :=
  match Extractor.iter Frame videos self with
  | Extractor.Ok (_, self') =>
      match Extractor.iter Frame videos self' with
      | Extractor.Ok (samples, _) => Extractor.Ok samples
      | Extractor.Raise e => Extractor.Raise e
      end
  | Extractor.Raise e => Extractor.Raise e
  end.

(** A directory with one clip of two frames, numbered 0 and 1. *)
Definition one_clip (path : string) : option (Extractor.Video nat) :=
  if String.eqb path "clip.mp4"
  then Some (Extractor.mkVideo nat 25 2 [(0%nat, 0%Q); (1%nat, 40%Q)])
  else None.

(** *** The grouped transcript *)

(** The trimmed text of [d] is not empty. *)
Definition nonblank (d : Detection) : bool := negb (is_empty (strip (text d))).

(** [d] belongs on the line of timestamp [t]. *)
Definition in_bucket (t : Q) (d : Detection) : bool :=
  nonblank d && Qeq_bool t (timestamp d).

(** The texts of the line of timestamp [t], in the order of [l]. *)
Definition bucket_texts (l : list Detection) (t : Q) : list string :=
  map (fun d => strip (text d)) (filter (in_bucket t) l).

(** The stamp of [t] floored to whole seconds. *)
Definition floor_stamp (t : Q) : string :=
  ("[" ++ format_0d 2 (Qfloor t / 60) ++ ":" ++ format_0d 2 (Qfloor t mod 60)
       ++ "]")%string.

Definition transcript_line (sep : string) (l : list Detection) (t : Q) : string :=
  (floor_stamp t ++ " - " ++ join sep (bucket_texts l t))%string.

(** A timestamp with at most three decimals, as [add] stores it. *)
Definition millis (d : Detection) : Prop :=
  exists k : Z, timestamp d = Qmake k 1000.

(** Ascending timestamps. *)
Definition ts_sorted (l : list Detection) : Prop :=
  StronglySorted (fun a b => (timestamp a <= timestamp b)%Q) l.

(** *** Stored detections *)

(** A confidence with at most four decimals, as [add] stores it. *)
Definition four_decimals (d : Detection) : Prop :=
  exists k : Z, confidence d = Qmake k 10000.

(** What [add] guarantees of the dictionary it builds. *)
Definition well_formed (d : Detection) : Prop :=
  strip (text d) = text d
  /\ text_length d = Z.of_nat (String.length (text d))
  /\ millis d
  /\ four_decimals d
  /\ 1 <= detection_id d.

Definition is_add (c : Call) : bool :=
  match c with CallAdd _ _ _ _ => true | _ => false end.

(** *** Lists that only lose elements *)

(** [l1] is [l2] with some elements left out, the others in place. *)
Inductive subseq {A : Type} : list A -> list A -> Prop :=
| subseq_nil : subseq [] []
| subseq_skip (x : A) (l1 l2 : list A) : subseq l1 l2 -> subseq l1 (x :: l2)
| subseq_keep (x : A) (l1 l2 : list A) : subseq l1 l2 -> subseq (x :: l1) (x :: l2).

(** The larger of two thresholds. *)
Definition larger (c1 c2 : Q) : Q := if Qle_bool c1 c2 then c2 else c1.

(** Two texts that share no letter, one second apart. *)
Definition a_b_store : JsonWriter :=
  add (add new_store 1 unit_box "a" (9 # 10)) 2 unit_box "b" (6 # 10).

(** *** Samples and recognised items *)

Definition sample_frame {Frame : Type} (x : Extractor.FrameSample Frame) : Frame :=
  snd (fst x).

Definition sample_timestamp {Frame : Type} (x : Extractor.FrameSample Frame) : Q :=
  snd x.

(** The sample is the frame at its index, stamped with the position the
    source reported for that frame. *)
Definition sample_of_source {Frame : Type} (frames : list (Frame * Q))
    (x : Extractor.FrameSample Frame) : Prop :=
  0 <= sample_index x
  /\ exists ms : Q,
       nth_error frames (Z.to_nat (sample_index x)) = Some (sample_frame x, ms)
       /\ sample_timestamp x = (ms / 1000)%Q.

Definition raw_box (r : Paddle.RawDetection) : Q * Q * Q * Q := fst (fst r).
Definition raw_text (r : Paddle.RawDetection) : string := snd (fst r).
Definition raw_score (r : Paddle.RawDetection) : Q := snd r.

(** The box reaches from the smallest to the largest coordinate of the
    corners of [poly]. *)
Definition encloses (box : Q * Q * Q * Q) (poly : Paddle.Poly) : Prop :=
  let '(x1, y1, x2, y2) := box in
  forall p, In p (Paddle.corner poly :: Paddle.corners poly) ->
    (x1 <= fst p <= x2)%Q /\ (y1 <= snd p <= y2)%Q.

(** A page with one quadrilateral read as "hello" with a score of 0.92. *)
Definition hello_page : Paddle.Page :=
  Paddle.mkPage None
    (Paddle.mkRes
       [Paddle.mkPoly (0, 0)%Q [(10, 0)%Q; (10, 10)%Q; (0, 10)%Q]]
       ["hello"%string] [92 # 100]).

Definition hello_item : Paddle.RawDetection :=
  ((0, 0, 10, 10)%Q, "hello"%string, 92 # 100).

(** *** Rows of the table *)

(** The text of a row is not empty and already trimmed. *)
Definition row_has_text (r : SimpleDb.Row) : Prop :=
  SimpleDb.row_text r <> ""%string
  /\ strip (SimpleDb.row_text r) = SimpleDb.row_text r.

(** *** The pipeline *)




(** A clip of two frames on which the engine reads "hello" in the first
    frame only. *)
Definition hello_predict (frame : nat) : option (list Paddle.Page) :=
  match frame with
  | O => Some [hello_page]
  | _ => Some []
  end.

(** Arguments, and an environment in which every path exists. *)
Definition clip_args (step : Z) : Cli.Args :=
  Cli.mkArgs "clip.mp4" "report.json" step false false.

(** * Properties *)

(** ** Comparisons of floats *)

Lemma ge_true (a b : Q) : ge a b = true <-> (b <= a)%Q.
Proof. unfold ge. apply Qle_bool_iff. Qed.

Lemma gt_true (a b : Q) : gt a b = true <-> (b < a)%Q.
Proof.
  unfold gt. rewrite negb_true_iff.
  destruct (Qle_bool a b) eqn:E.
  - apply Qle_bool_iff in E. split; [discriminate | intro H; lra].
  - split; [intros _ | reflexivity].
    apply Qnot_le_lt. intro H. apply Qle_bool_iff in H. congruence.
Qed.

Lemma lt_true (a b : Q) : lt a b = true <-> (a < b)%Q.
Proof. exact (gt_true b a). Qed.

Lemma ge_false (a b : Q) : ge a b = false <-> (a < b)%Q.
Proof.
  rewrite <- lt_true. unfold ge, lt.
  destruct (Qle_bool b a); simpl; split; congruence.
Qed.

Lemma len_app {A} (l1 l2 : list A) : len (l1 ++ l2) = len l1 + len l2.
Proof. unfold len. rewrite length_app. lia. Qed.

Lemma len_filter_le {A} (f : A -> bool) (l : list A) : len (filter f l) <= len l.
Proof.
  unfold len. induction l as [|x l IH]; simpl; [lia|].
  destruct (f x); simpl; lia.
Qed.

(** ** filter_by_confidence *)

(** The filter splits the list: what stays and what goes add up. *)
Lemma filter_split_length {A} (f g : A -> bool) (l : list A) :
  (forall x, g x = negb (f x)) ->
  (length (filter f l) + length (filter g l) = length l)%nat.
Proof.
  intro H. induction l as [|x l IH]; simpl; [reflexivity|].
  rewrite H. destruct (f x); simpl; lia.
Qed.

Lemma below_negb_ge (c : Q) (d : Detection) :
  below c d = negb (ge (confidence d) c).
Proof.
  unfold below. destruct (Qlt_le_dec (confidence d) c) as [H|H].
  - apply ge_false in H. now rewrite H.
  - apply ge_true in H. now rewrite H.
Qed.

(** C9.  After [filter_by_confidence c] every detection left has confidence
    at least [c]; the count reported is the number of detections that were
    strictly below [c]; and the list left is exactly the old list without
    those, each survivor unchanged and in its old order. *)
Theorem filter_by_confidence_spec (self : JsonWriter) (c : Q) :
  let self' := fst (filter_by_confidence self c) in
  let removed := snd (filter_by_confidence self c) in
  Forall (fun d => (c <= confidence d)%Q) (data self')
  /\ removed = len (filter (below c) (data self))
  /\ data self' = filter (fun d => negb (below c d)) (data self)
  /\ len (data self') = len (data self) - removed
  /\ output_path self' = output_path self.
Proof.
  cbn zeta. unfold filter_by_confidence. cbn [fst snd data output_path].
  assert (E : filter (fun d => ge (confidence d) c) (data self)
              = filter (fun d => negb (below c d)) (data self)).
  { apply filter_ext. intro d. rewrite below_negb_ge. now rewrite negb_involutive. }
  assert (L : (length (filter (fun d => ge (confidence d) c) (data self))
               + length (filter (below c) (data self)) = length (data self))%nat).
  { apply filter_split_length. intro d. apply below_negb_ge. }
  repeat split.
  - apply Forall_forall. intros d Hd. apply filter_In in Hd.
    now apply ge_true.
  - unfold len. lia.
  - exact E.
  - unfold len. lia.
Qed.

(** ** remove_duplicates never grows the list *)

Section DedupLength.

Variable lower : string -> string.
Variable ratio : string -> string -> Q.
Variables time_threshold similarity_threshold : Q.

Let step := dedup_step lower ratio time_threshold similarity_threshold.
Let loop := dedup_loop lower ratio time_threshold similarity_threshold.

Lemma list_remove_length (x : Detection) (l : list Detection) :
  (length (list_remove x l) <= length l)%nat.
Proof.
  induction l as [|y l IH]; simpl; [lia|].
  destruct (detection_eqb y x); simpl; lia.
Qed.

Lemma first_match_In (c e : Detection) (l : list Detection) :
  first_match lower ratio time_threshold similarity_threshold c l = Some e ->
  In e l.
Proof.
  induction l as [|y l IH]; simpl; [discriminate|].
  destruct (gt _ time_threshold); [auto|].
  destruct (ge _ similarity_threshold); [|auto].
  intro H. injection H as ->. now left.
Qed.

Lemma list_remove_In_length (x : Detection) (l : list Detection) :
  In x l -> S (length (list_remove x l)) = length l.
Proof.
  induction l as [|y l IH]; simpl; [tauto|].
  intros [->|H].
  - assert (E : detection_eqb x x = true).
    { unfold detection_eqb, bbox_eqb.
      rewrite !Z.eqb_refl, String.eqb_refl.
      rewrite !(proj2 (Qeq_bool_iff _ _) (Qeq_refl _)). reflexivity. }
    now rewrite E.
  - destruct (detection_eqb y x); simpl; [reflexivity|].
    now rewrite IH.
Qed.

Lemma dedup_step_length (acc : list Detection) (c : Detection) :
  (length (step acc c) <= S (length acc))%nat.
Proof.
  unfold step, dedup_step.
  destruct (first_match _ _ _ _ c acc) as [e|] eqn:E.
  - destruct (gt (confidence c) (confidence e)); [|lia].
    rewrite length_app. simpl.
    pose proof (list_remove_length e acc). lia.
  - rewrite length_app. simpl. lia.
Qed.

Lemma fold_dedup_length (l acc : list Detection) :
  (length (fold_left step l acc) <= length acc + length l)%nat.
Proof.
  revert acc. induction l as [|c l IH]; intro acc; simpl; [lia|].
  specialize (IH (step acc c)).
  pose proof (dedup_step_length acc c). lia.
Qed.

Lemma dedup_loop_length (l : list Detection) : len (loop l) <= len l.
Proof.
  unfold len, loop, dedup_loop.
  pose proof (fold_dedup_length l []). simpl in *.
  fold step. lia.
Qed.

End DedupLength.

(** ** The recorded count *)

Lemma count_consistent_init (now path : string) :
  count_consistent (init now path).
Proof. reflexivity. Qed.

Lemma count_consistent_add w ts bbox txt conf :
  count_consistent w -> count_consistent (add w ts bbox txt conf).
Proof.
  unfold count_consistent, add. cbn [data metadata set_total total_detections].
  intro H. rewrite len_app, H. reflexivity.
Qed.

Lemma count_consistent_filter w c :
  count_consistent w -> count_consistent (fst (filter_by_confidence w c)).
Proof.
  unfold count_consistent, filter_by_confidence. cbn [fst data metadata].
  intro H.
  set (kept := filter _ (data w)).
  pose proof (len_filter_le (fun d => ge (confidence d) c) (data w)) as L.
  fold kept in L.
  destruct (len (data w) - len kept >? 0) eqn:E.
  - reflexivity.
  - rewrite H. rewrite Z.gtb_ltb in E. apply Z.ltb_ge in E. lia.
Qed.

Lemma count_consistent_dedup lower ratio t s w :
  count_consistent w ->
  count_consistent (fst (remove_duplicates lower ratio t s w)).
Proof.
  unfold count_consistent, remove_duplicates. intro H.
  destruct (len (data w) <=? 1); [exact H|].
  cbn [fst data metadata].
  pose proof (dedup_loop_length lower ratio t s (data w)) as L.
  destruct (_ >? 0) eqn:E.
  - reflexivity.
  - rewrite H. rewrite Z.gtb_ltb in E. apply Z.ltb_ge in E. lia.
Qed.

(** C10.  [metadata["total_detections"]] equals the number of detections
    held: in a new store, and after [add], [filter_by_confidence] and
    [remove_duplicates] whenever it did before the call. *)
Theorem total_detections_invariant :
  (forall now path, count_consistent (init now path))
  /\ (forall w ts bbox txt conf,
        count_consistent w -> count_consistent (add w ts bbox txt conf))
  /\ (forall w c,
        count_consistent w -> count_consistent (fst (filter_by_confidence w c)))
  /\ (forall lower ratio t s w,
        count_consistent w ->
        count_consistent (fst (remove_duplicates lower ratio t s w))).
Proof.
  split; [exact count_consistent_init|].
  split; [exact count_consistent_add|].
  split; [exact count_consistent_filter|].
  exact count_consistent_dedup.
Qed.

Lemma total_detections_invariant_witness :
  count_consistent
    (fst (filter_by_confidence (add new_store 1 unit_box "a" (1 # 2)) (9 # 10))).
Proof.
  apply (proj1 (proj2 (proj2 total_detections_invariant))).
  apply (proj1 (proj2 total_detections_invariant)).
  apply (proj1 total_detections_invariant).
Defined.

(** ** add *)

Lemma len_data_add w ts bbox txt conf :
  len (data (add w ts bbox txt conf)) = len (data w) + 1.
Proof. unfold add. cbn [data]. now rewrite len_app. Qed.

Lemma detection_id_make w ts bbox txt conf :
  detection_id (make_detection w ts bbox txt conf) = len (data w) + 1.
Proof. now destruct bbox as [[[a b] c] d]. Qed.

Lemma text_make w ts bbox txt conf :
  text (make_detection w ts bbox txt conf) = strip txt.
Proof. now destruct bbox as [[[a b] c] d]. Qed.

Lemma timestamp_make w ts bbox txt conf :
  timestamp (make_detection w ts bbox txt conf) = round_nd ts 3.
Proof. now destruct bbox as [[[a b] c] d]. Qed.

(** C2, as stated, fails: a text of blanks is stored, as the empty string. *)
Lemma add_blank_text_is_stored :
  strip "   " = ""%string
  /\ data (add new_store 1 unit_box "   " (9 # 10)) <> data new_store
  /\ len (data (add new_store 1 unit_box "   " (9 # 10)))
     = len (data new_store) + 1.
Proof. repeat split. discriminate. Qed.

(** C2, amended.  [add] has no check on the text: a text that trims to the
    empty string is appended like any other, as a detection whose text is
    empty, with the next id, and both counts grow by one. *)
Theorem add_appends_blank_text w ts bbox txt conf :
  strip txt = ""%string ->
  exists d,
    data (add w ts bbox txt conf) = data w ++ [d]
    /\ text d = ""%string
    /\ text_length d = 0
    /\ detection_id d = len (data w) + 1
    /\ len (data (add w ts bbox txt conf)) = len (data w) + 1
    /\ total_detections (metadata (add w ts bbox txt conf))
       = total_detections (metadata w) + 1.
Proof.
  intro H. exists (make_detection w ts bbox txt conf).
  destruct bbox as [[[a b] c] d].
  unfold add, make_detection. cbn [data text text_length detection_id metadata
                                   set_total total_detections].
  rewrite H, len_app. repeat split.
Qed.

Lemma add_appends_blank_text_witness :
  exists d,
    data (add new_store 1 unit_box "   " (9 # 10)) = data new_store ++ [d]
    /\ text d = ""%string
    /\ text_length d = 0
    /\ detection_id d = len (data new_store) + 1
    /\ len (data (add new_store 1 unit_box "   " (9 # 10)))
       = len (data new_store) + 1
    /\ total_detections (metadata (add new_store 1 unit_box "   " (9 # 10)))
       = total_detections (metadata new_store) + 1.
Proof. apply (add_appends_blank_text new_store 1 unit_box "   " (9 # 10)). reflexivity. Defined.

(** ** detection_id *)

(** C1, as stated, fails: after the filter has removed the second detection
    the third one gets the id 2 again. *)
Lemma detection_id_reused :
  map detection_id
      (created Difflib.lower Difflib.ratio new_store add_filter_add)
  = [1; 2; 2]
  /\ ~ StronglySorted Z.lt
       (map detection_id
            (created Difflib.lower Difflib.ratio new_store add_filter_add)).
Proof.
  split; [reflexivity|].
  intro H. change (StronglySorted Z.lt [1; 2; 2]) in H.
  inversion H as [|a l Hs _]; subst.
  inversion Hs as [|a' l' _ Hf]; subst.
  inversion Hf as [|x y Hlt _]; subst. lia.
Qed.

Section Ids.

Variable lower : string -> string.
Variable ratio : string -> string -> Q.

Lemma created_ids_above (calls : list Call) : forall w,
  removes_nothing lower ratio w calls = true ->
  StronglySorted Z.lt (map detection_id (created lower ratio w calls))
  /\ Forall (fun i => len (data w) < i)
            (map detection_id (created lower ratio w calls)).
Proof.
  induction calls as [|c calls IH]; intros w H.
  - split; constructor.
  - cbn [removes_nothing] in H. apply andb_true_iff in H as [Hc Hr].
    apply Z.leb_le in Hc.
    destruct (IH _ Hr) as [S F].
    assert (F' : Forall (fun i => len (data w) < i)
                   (map detection_id
                      (created lower ratio (call lower ratio w c) calls))).
    { eapply Forall_impl; [|exact F]. cbv beta. intros i Hi. lia. }
    destruct c as [ts bbox txt conf | m | t s]; cbn [created]; auto.
    cbn [map]. split.
    + constructor; [exact S|].
      eapply Forall_impl; [|exact F]. cbv beta. intros i Hi.
      cbn [call] in Hi. rewrite len_data_add in Hi.
      rewrite detection_id_make. lia.
    + constructor; [|exact F'].
      rewrite detection_id_make. lia.
Qed.

End Ids.

(** C1, amended.  [add] numbers a detection by the current length of the
    list plus one.  Over any sequence of calls in which no call removes a
    detection, the ids given by [add] are strictly increasing, so a later
    [add] gets a strictly greater id than an earlier one. *)
Theorem detection_id_increasing_without_removal lower ratio w calls :
  removes_nothing lower ratio w calls = true ->
  StronglySorted Z.lt (map detection_id (created lower ratio w calls)).
Proof. intro H. now apply created_ids_above. Qed.

Lemma detection_id_increasing_without_removal_witness :
  StronglySorted Z.lt
    (map detection_id
       (created Difflib.lower Difflib.ratio new_store
          [CallAdd 1 unit_box "a" (9 # 10); CallFilter (5 # 10);
           CallAdd 2 unit_box "b" (8 # 10); CallDedup 1 (9 # 10);
           CallAdd 3 unit_box "c" (7 # 10)])).
Proof.
  apply (detection_id_increasing_without_removal Difflib.lower Difflib.ratio
           new_store).
  vm_compute. reflexivity.
Defined.

(** ** remove_duplicates: one candidate against the accepted entries *)

Section DedupStep.

Variable lower : string -> string.
Variable ratio : string -> string -> Q.
Variables time_threshold similarity_threshold : Q.

Local Abbreviation is_dup := (is_duplicate_of lower ratio time_threshold similarity_threshold).
Local Abbreviation fmatch := (first_match lower ratio time_threshold similarity_threshold).
Local Abbreviation step := (dedup_step lower ratio time_threshold similarity_threshold).
Local Abbreviation loop := (dedup_loop lower ratio time_threshold similarity_threshold).
Local Abbreviation dup := (duplicates lower ratio time_threshold similarity_threshold).

Lemma is_dup_true (c x : Detection) : is_dup c x = true <-> dup c x.
Proof.
  unfold is_duplicate_of, duplicates.
  destruct (gt _ time_threshold) eqn:G.
  - apply gt_true in G. split; [discriminate|]. intros [H _]. lra.
  - rewrite ge_true. split; [|tauto]. intro H. split; [|exact H].
    apply Qnot_lt_le. intro L. apply gt_true in L. congruence.
Qed.

(** The inner loop is a search for the first entry passing the test. *)
Lemma first_match_find (c : Detection) (l : list Detection) :
  fmatch c l = find (is_dup c) l.
Proof.
  induction l as [|x l IH]; simpl; [reflexivity|].
  unfold is_duplicate_of at 1.
  destruct (gt _ time_threshold); [exact IH|].
  destruct (ge _ similarity_threshold); [reflexivity | exact IH].
Qed.

Lemma first_match_split (c e : Detection) (l1 l2 : list Detection) :
  Forall (fun x => ~ dup c x) l1 -> dup c e ->
  fmatch c (l1 ++ e :: l2) = Some e.
Proof.
  intros H1 He. rewrite first_match_find.
  induction H1 as [|x l1 Hx _ IH]; simpl.
  - now rewrite (proj2 (is_dup_true c e) He).
  - destruct (is_dup c x) eqn:E; [|exact IH].
    apply is_dup_true in E. contradiction.
Qed.

Lemma first_match_none (c : Detection) (l : list Detection) :
  fmatch c l = None <-> Forall (fun x => ~ dup c x) l.
Proof.
  rewrite first_match_find. induction l as [|x l IH]; simpl.
  - split; [constructor | reflexivity].
  - destruct (is_dup c x) eqn:E.
    + split; [discriminate|]. intro H. inversion H; subst.
      apply is_dup_true in E. contradiction.
    + rewrite IH. split; intro H.
      * constructor; [|exact H]. rewrite <- is_dup_true. congruence.
      * now inversion H.
Qed.

(** Equal dictionaries pass or fail the test together. *)
Lemma detection_eqb_is_dup (c x e : Detection) :
  detection_eqb x e = true -> is_dup c x = is_dup c e.
Proof.
  unfold detection_eqb. rewrite !andb_true_iff.
  intros [[[[[Ht _] Hx] _] _] _].
  apply Qeq_bool_iff in Ht. apply String.eqb_eq in Hx.
  unfold is_duplicate_of, gt. rewrite Hx.
  assert (E : (Qabs (timestamp c - timestamp x)
               == Qabs (timestamp c - timestamp e))%Q) by now rewrite Ht.
  now rewrite E.
Qed.

(** [remove] takes out the entry the scan stopped at. *)
Lemma list_remove_first_match (c e : Detection) (l1 l2 : list Detection) :
  Forall (fun x => ~ dup c x) l1 -> dup c e ->
  list_remove e (l1 ++ e :: l2) = l1 ++ l2.
Proof.
  intros H1 He. induction H1 as [|x l1 Hx _ IH]; simpl.
  - assert (E : detection_eqb e e = true).
    { unfold detection_eqb, bbox_eqb.
      rewrite !Z.eqb_refl, String.eqb_refl.
      rewrite !(proj2 (Qeq_bool_iff _ _) (Qeq_refl _)). reflexivity. }
    now rewrite E.
  - destruct (detection_eqb x e) eqn:E; [|now rewrite IH].
    apply (detection_eqb_is_dup c) in E.
    rewrite (proj2 (is_dup_true c e) He) in E.
    apply is_dup_true in E. contradiction.
Qed.

Lemma dedup_step_match (c e : Detection) (l1 l2 : list Detection) :
  Forall (fun x => ~ dup c x) l1 -> dup c e ->
  step (l1 ++ e :: l2) c
  = if Qlt_le_dec (confidence e) (confidence c)
    then l1 ++ l2 ++ [c]
    else l1 ++ e :: l2.
Proof.
  intros H1 He. unfold dedup_step.
  rewrite (first_match_split c e l1 l2 H1 He).
  destruct (Qlt_le_dec (confidence e) (confidence c)) as [L|L].
  - rewrite (proj2 (gt_true _ _) L).
    rewrite (list_remove_first_match c e l1 l2 H1 He).
    now rewrite app_assoc.
  - destruct (gt (confidence c) (confidence e)) eqn:G; [|reflexivity].
    apply gt_true in G. lra.
Qed.

Lemma dedup_step_no_match (c : Detection) (l : list Detection) :
  Forall (fun x => ~ dup c x) l -> step l c = l ++ [c].
Proof.
  intro H. unfold dedup_step.
  now rewrite (proj2 (first_match_none c l) H).
Qed.

Lemma dedup_loop_snoc (l : list Detection) (c : Detection) :
  loop (l ++ [c]) = step (loop l) c.
Proof. unfold dedup_loop. now rewrite fold_left_app. Qed.

End DedupStep.

(** C5.  The candidates are taken in insertion order: the pass over
    [l ++ [c]] is the pass over [l] followed by the round for [c].  In that
    round, let [e] be the first accepted entry that is within the time
    window of [c] and similar enough.  If the confidence of [c] is strictly
    higher, [e] leaves the accepted list and [c] joins it; otherwise, also
    on equal confidence, the accepted list stays as it is and [c] is
    dropped.  The entries after [e] are not looked at: they stay, whether
    they duplicate [c] or not. *)
Theorem dedup_keeps_higher_confidence lower ratio time_threshold
    similarity_threshold (l l1 l2 : list Detection) (e c : Detection) :
  dedup_loop lower ratio time_threshold similarity_threshold l = l1 ++ e :: l2 ->
  Forall (fun x => ~ duplicates lower ratio time_threshold similarity_threshold c x) l1 ->
  duplicates lower ratio time_threshold similarity_threshold c e ->
  dedup_loop lower ratio time_threshold similarity_threshold (l ++ [c])
  = if Qlt_le_dec (confidence e) (confidence c)
    then l1 ++ l2 ++ [c]
    else l1 ++ e :: l2.
Proof.
  intros Hl H1 He. rewrite dedup_loop_snoc, Hl.
  now apply dedup_step_match.
Qed.

Lemma dedup_keeps_higher_confidence_witness :
  dedup_loop Difflib.lower Difflib.ratio 1 (7 # 10)
             ([hello_detection] ++ [hallo_detection])
  = if Qlt_le_dec (confidence hello_detection) (confidence hallo_detection)
    then [] ++ [] ++ [hallo_detection]
    else [] ++ hello_detection :: [].
Proof.
  apply (dedup_keeps_higher_confidence Difflib.lower Difflib.ratio 1 (7 # 10)
           [hello_detection] [] [] hello_detection hallo_detection).
  - reflexivity.
  - constructor.
  - split; vm_compute; discriminate.
Defined.

(** ** remove_duplicates, run twice *)

(** C3, as stated, fails.  With "x" stored at 0 s, 2 s and 1 s and a window
    of one second, the first call lets the third detection replace the
    first one without comparing it with the second; the second call then
    finds that pair and removes one more detection. *)
Lemma dedup_second_call_removes_again :
  let once :=
    fst (remove_duplicates Difflib.lower Difflib.ratio 1 (9 # 10) three_x_store) in
  let twice := remove_duplicates Difflib.lower Difflib.ratio 1 (9 # 10) once in
  map detection_id (data once) = [2; 3]
  /\ snd twice = 1
  /\ map detection_id (data (fst twice)) = [3]
  /\ data (fst twice) <> data once.
Proof.
  cbv zeta. repeat split. vm_compute. discriminate.
Qed.

Section DedupTwice.

Variable lower : string -> string.
Variable ratio : string -> string -> Q.
Variables time_threshold similarity_threshold : Q.

Local Abbreviation fmatch := (first_match lower ratio time_threshold similarity_threshold).
Local Abbreviation step := (dedup_step lower ratio time_threshold similarity_threshold).
Local Abbreviation loop := (dedup_loop lower ratio time_threshold similarity_threshold).
Local Abbreviation settled := (settled_from lower ratio time_threshold similarity_threshold).
Local Abbreviation quiet := (no_replacement_from lower ratio time_threshold similarity_threshold).

(** A pass over a settled list accepts every candidate. *)
Lemma settled_pass (l : list Detection) : forall acc,
  settled acc l = true -> fold_left step l acc = acc ++ l.
Proof.
  induction l as [|c l IH]; intros acc H; simpl.
  - now rewrite app_nil_r.
  - simpl in H.
    destruct (fmatch c acc) eqn:E; [discriminate|].
    assert (St : step acc c = acc ++ [c])
      by (unfold dedup_step; now rewrite E).
    rewrite St, (IH _ H), <- app_assoc. reflexivity.
Qed.

Lemma settled_snoc (l : list Detection) (c : Detection) : forall acc,
  settled acc l = true -> fmatch c (acc ++ l) = None ->
  settled acc (l ++ [c]) = true.
Proof.
  induction l as [|x l IH]; intros acc H N; simpl in *.
  - rewrite app_nil_r in N. now rewrite N.
  - destruct (fmatch x acc); [discriminate|].
    apply IH; [exact H|]. now rewrite <- app_assoc.
Qed.

(** A pass without replacement leaves a settled list. *)
Lemma quiet_pass_settled (l : list Detection) : forall acc,
  quiet acc l = true -> settled [] acc = true ->
  settled [] (fold_left step l acc) = true.
Proof.
  induction l as [|c l IH]; intros acc Q S; simpl; [exact S|].
  simpl in Q. apply andb_true_iff in Q as [R Q].
  apply IH; [exact Q|].
  unfold replaces in R. unfold dedup_step.
  destruct (fmatch c acc) as [e|] eqn:E.
  - apply negb_true_iff in R. now rewrite R.
  - apply settled_snoc; [exact S | exact E].
Qed.

Lemma dedup_loop_quiet_fixpoint (l : list Detection) :
  no_replacement lower ratio time_threshold similarity_threshold l = true ->
  loop (loop l) = loop l.
Proof.
  intro Q. unfold dedup_loop at 1.
  rewrite settled_pass; [reflexivity|].
  now apply quiet_pass_settled.
Qed.

End DedupTwice.

(** C3, amended.  When the first call never lets a candidate take the place
    of an accepted entry (every duplicate it finds is dropped), a second
    call with the same thresholds removes nothing and leaves the store as
    the first call left it. *)
Theorem dedup_twice_without_replacement lower ratio time_threshold
    similarity_threshold (w : JsonWriter) :
  no_replacement lower ratio time_threshold similarity_threshold (data w) = true ->
  let once :=
    fst (remove_duplicates lower ratio time_threshold similarity_threshold w) in
  let twice :=
    remove_duplicates lower ratio time_threshold similarity_threshold once in
  snd twice = 0 /\ fst twice = once /\ data (fst twice) = data once.
Proof.
  intro Q. cbv zeta.
  set (once := fst (remove_duplicates _ _ _ _ w)).
  assert (F : dedup_loop lower ratio time_threshold similarity_threshold (data once)
              = data once \/ len (data once) <= 1).
  { subst once. unfold remove_duplicates.
    destruct (len (data w) <=? 1) eqn:E.
    - right. now apply Z.leb_le in E.
    - left. cbn [fst data]. now apply dedup_loop_quiet_fixpoint. }
  unfold remove_duplicates at 1 2 3.
  destruct (len (data once) <=? 1) eqn:E; [now repeat split|].
  destruct F as [F|F]; [|apply Z.leb_gt in E; lia].
  cbn [fst snd data]. rewrite F, Z.sub_diag. cbn.
  repeat split. now destruct once.
Qed.

Lemma dedup_twice_without_replacement_witness :
  let once :=
    fst (remove_duplicates Difflib.lower Difflib.ratio 1 (9 # 10) two_x_store) in
  let twice :=
    remove_duplicates Difflib.lower Difflib.ratio 1 (9 # 10) once in
  snd twice = 0 /\ fst twice = once /\ data (fst twice) = data once.
Proof.
  apply (dedup_twice_without_replacement Difflib.lower Difflib.ratio 1 (9 # 10)
           two_x_store).
  vm_compute. reflexivity.
Defined.

(** ** The gate of recognize *)

Lemma gate_drops (poly : Paddle.Poly) (txt : string) (score : Q) :
  txt = ""%string \/ (score < 30 # 100)%Q -> Paddle.gate poly txt score = [].
Proof.
  unfold Paddle.gate. intros [-> | H]; [reflexivity|].
  apply lt_true in H. rewrite H. now rewrite orb_true_r.
Qed.

Lemma gate_yields (poly : Paddle.Poly) (txt : string) (score : Q) r :
  In r (Paddle.gate poly txt score) ->
  txt <> ""%string /\ (30 # 100 <= score)%Q
  /\ snd (fst r) = strip txt /\ snd r = score.
Proof.
  unfold Paddle.gate.
  destruct (is_empty txt) eqn:E; [contradiction|].
  destruct (lt score (30 # 100)) eqn:L; [contradiction|].
  simpl. intros [<- | []]. cbn [fst snd].
  repeat split.
  - intros ->. discriminate.
  - apply ge_true. unfold ge, lt in *. now apply negb_false_iff in L.
Qed.

(** C4 at the failing input: a text of three blanks scored 0.9 passes the
    gate, which tests the text before trimming it; it is yielded as the
    empty string and [run_pipeline] stores it. *)
Theorem gate_passes_blank_text :
  Paddle.recognize (Some [blank_page]) = [((0, 0, 10, 10)%Q, ""%string, 9 # 10)]
  /\ map text
       (data (Engine.store_results new_store 1
                (Paddle.recognize (Some [blank_page]))))
     = [""%string].
Proof. split; reflexivity. Qed.

(** ** FrameExtractor *)

Section Sampling.

Variable Frame : Type.
Variable videos : string -> option (Extractor.Video Frame).

Local Abbreviation iter_loop := (Extractor.iter_loop Frame).

(** One more frame at the end of the source adds at most one sample. *)
Lemma iter_loop_snoc (s : Z) (p : list (Frame * Q)) (f : Frame) (t : Q) :
  forall i,
    iter_loop s (p ++ [(f, t)]) i
    = iter_loop s p i
      ++ (if (i + len p) mod s =? 0
          then [(i + len p, f, (t / 1000)%Q)] else []).
Proof.
  induction p as [|[g u] p IH]; intro i.
  - unfold len. simpl. rewrite Z.add_0_r. now rewrite app_nil_r.
  - simpl. rewrite IH, <- app_assoc.
    replace (i + 1 + len p) with (i + len ((g, u) :: p))
      by (unfold len; simpl length; lia).
    reflexivity.
Qed.

Lemma ceil_div_next (n s : Z) :
  0 <= n -> 1 <= s ->
  (n mod s = 0 -> ceil_div (n + 1) s = ceil_div n s + 1 /\ n = ceil_div n s * s)
  /\ (n mod s <> 0 -> ceil_div (n + 1) s = ceil_div n s).
Proof.
  intros Hn Hs. unfold ceil_div.
  pose proof (Z.div_mod n s ltac:(lia)) as D.
  pose proof (Z.mod_pos_bound n s ltac:(lia)) as B.
  assert (Q1 : (n + 1 + s - 1) / s = n / s + 1).
  { symmetry. apply (Z.div_unique _ _ _ (n mod s)); lia. }
  split; intro R.
  - assert (Q0 : (n + s - 1) / s = n / s).
    { symmetry. apply (Z.div_unique _ _ _ (s - 1)); lia. }
    rewrite Q1, Q0. split; lia.
  - assert (Q0 : (n + s - 1) / s = n / s + 1).
    { symmetry. apply (Z.div_unique _ _ _ (n mod s - 1)); lia. }
    rewrite Q1, Q0. reflexivity.
Qed.

Lemma ceil_div_nonneg (n s : Z) : 0 <= n -> 1 <= s -> 0 <= ceil_div n s.
Proof. intros. unfold ceil_div. apply Z.div_pos; lia. Qed.

Lemma iter_loop_indices (s : Z) (p : list (Frame * Q)) :
  1 <= s ->
  map sample_index (iter_loop s p 0)
  = map (fun k => Z.of_nat k * s) (seq 0 (Z.to_nat (ceil_div (len p) s))).
Proof.
  intro Hs. induction p as [|[f t] p IH] using rev_ind.
  - unfold ceil_div, len. simpl.
    rewrite Z.div_small by lia. reflexivity.
  - rewrite iter_loop_snoc, map_app, IH, len_app.
    change (len [(f, t)]) with 1. rewrite Z.add_0_l.
    assert (Hn : 0 <= len p) by (unfold len; lia).
    destruct (ceil_div_next (len p) s Hn Hs) as [Z0 NZ].
    pose proof (ceil_div_nonneg (len p) s Hn Hs) as C.
    destruct (len p mod s =? 0) eqn:E.
    + apply Z.eqb_eq in E. destruct (Z0 E) as [N1 N2].
      rewrite N1, Z2Nat.inj_add by lia.
      change (Z.to_nat 1) with 1%nat.
      rewrite Nat.add_1_r, seq_S, map_app. simpl.
      rewrite Z2Nat.id by lia. unfold sample_index at 1. simpl.
      now rewrite <- N2.
    + apply Z.eqb_neq in E. rewrite (NZ E). simpl. now rewrite app_nil_r.
Qed.

Lemma init_opens (path : string) (s : Z) (v : Extractor.Video Frame) :
  videos path = Some v ->
  exists fps n dur,
    Extractor.init Frame videos path s
    = Extractor.Ok
        (Extractor.mkExtractor Frame path (Z.max 1 s)
           (Some (Extractor.mkCapture Frame true (Extractor.video_fps Frame v)
                    (Extractor.video_frame_count Frame v)
                    (Extractor.video_frames Frame v)))
           fps n dur).
Proof.
  intro H. unfold Extractor.init, Extractor._init_video, Extractor.open_capture.
  cbn. rewrite H. cbn. eauto.
Qed.

(** Iterating an extractor whose capture is open reads what is pending
    and releases the capture. *)
Lemma iter_opened path s c fps n dur :
  Extractor.is_opened Frame c = true ->
  Extractor.iter Frame videos
    (Extractor.mkExtractor Frame path s (Some c) fps n dur)
  = Extractor.Ok
      (Extractor.iter_loop Frame s (Extractor.pending Frame c) 0,
       Extractor.mkExtractor Frame path s None fps n dur).
Proof.
  intro H. unfold Extractor.iter. cbn [Extractor.cap]. rewrite H.
  reflexivity.
Qed.

(** Iterating an extractor without capture opens the file first. *)
Lemma iter_released path s fps n dur (v : Extractor.Video Frame) :
  videos path = Some v ->
  exists self',
    Extractor.iter Frame videos
      (Extractor.mkExtractor Frame path s None fps n dur)
    = Extractor.Ok
        (Extractor.iter_loop Frame s (Extractor.video_frames Frame v) 0, self')
    /\ Extractor.cap Frame self' = None.
Proof.
  intro H.
  unfold Extractor.iter, Extractor._init_video, Extractor.open_capture.
  cbn. rewrite H. cbn. eauto.
Qed.

End Sampling.

(** C6.  For a stride [s >= 1] and a file of [N] decodable frames, a new
    extractor iterated to its end yields [ceil(N / s)] samples, and their
    indices are [0, s, 2s, ...] in this order. *)
Theorem sampler_yields_every_stride (Frame : Type)
    (videos : string -> option (Extractor.Video Frame))
    (path : string) (s : Z) (v : Extractor.Video Frame) :
  1 <= s ->
  videos path = Some v ->
  let N := len (Extractor.video_frames Frame v) in
  exists self self' samples,
    Extractor.init Frame videos path s = Extractor.Ok self
    /\ Extractor.iter Frame videos self = Extractor.Ok (samples, self')
    /\ len samples = ceil_div N s
    /\ map sample_index samples
       = map (fun k => Z.of_nat k * s) (seq 0 (Z.to_nat (ceil_div N s))).
Proof.
  intros Hs Hv N. subst N.
  destruct (init_opens Frame videos path s v Hv) as (fps & n & dur & Hinit).
  eexists. eexists. eexists.
  split; [exact Hinit|].
  split; [reflexivity|].
  cbn [Extractor.step Extractor.pending].
  rewrite Z.max_r by lia.
  pose proof (iter_loop_indices Frame s (Extractor.video_frames Frame v) Hs) as I.
  split; [|exact I].
  apply (f_equal (@length Z)) in I.
  rewrite !length_map, length_seq in I.
  unfold len at 1. rewrite I. apply Z2Nat.id.
  apply ceil_div_nonneg; [unfold len; lia | exact Hs].
Qed.

Lemma sampler_yields_every_stride_witness :
  exists self self' samples,
    Extractor.init nat one_clip "clip.mp4" 1 = Extractor.Ok self
    /\ Extractor.iter nat one_clip self = Extractor.Ok (samples, self')
    /\ len samples = ceil_div 2 1
    /\ map sample_index samples
       = map (fun k => Z.of_nat k * 1) (seq 0 (Z.to_nat (ceil_div 2 1))).
Proof.
  apply (sampler_yields_every_stride nat one_clip "clip.mp4" 1
           (Extractor.mkVideo nat 25 2 [(0%nat, 0%Q); (1%nat, 40%Q)])).
  - lia.
  - reflexivity.
Defined.

(** C8, as stated, fails.  After a first iteration has reached the end of a
    clip of two frames, a second iteration of the same extractor opens the
    file again and yields both frames again. *)
Lemma second_iteration_yields_again :
  exists self,
    Extractor.init nat one_clip "clip.mp4" 1 = Extractor.Ok self
    /\ second_iteration one_clip self
       = Extractor.Ok [(0, 0%nat, (0 / 1000)%Q); (1, 1%nat, (40 / 1000)%Q)]
    /\ second_iteration one_clip self <> Extractor.Ok [].
Proof.
  eexists. split; [reflexivity|]. split; [reflexivity|].
  vm_compute. discriminate.
Qed.

(** C8, amended.  When an iteration has reached the end of the source the
    capture is released and forgotten ([cap] is [None]).  Iterating the
    same extractor again opens the file again and, the file being the same,
    yields the same samples from index 0 again. *)
Theorem iteration_restarts_from_the_file (Frame : Type)
    (videos : string -> option (Extractor.Video Frame))
    (path : string) (s : Z) (v : Extractor.Video Frame) :
  videos path = Some v ->
  exists self samples self1 self2,
    Extractor.init Frame videos path s = Extractor.Ok self
    /\ Extractor.iter Frame videos self = Extractor.Ok (samples, self1)
    /\ Extractor.cap Frame self1 = None
    /\ Extractor.iter Frame videos self1 = Extractor.Ok (samples, self2)
    /\ Extractor.cap Frame self2 = None
    /\ second_iteration videos self = Extractor.Ok samples.
Proof.
  intro Hv.
  destruct (init_opens Frame videos path s v Hv) as (fps & n & dur & Hinit).
  destruct (iter_released Frame videos path (Z.max 1 s) fps n dur v Hv)
    as (self2 & H2 & Hcap).
  eexists. eexists. eexists. exists self2.
  split; [exact Hinit|].
  split; [now apply iter_opened|].
  split; [reflexivity|].
  split; [exact H2|].
  split; [exact Hcap|].
  unfold second_iteration.
  rewrite iter_opened by reflexivity.
  now rewrite H2.
Qed.

Lemma iteration_restarts_from_the_file_witness :
  exists self samples self1 self2,
    Extractor.init nat one_clip "clip.mp4" 1 = Extractor.Ok self
    /\ Extractor.iter nat one_clip self = Extractor.Ok (samples, self1)
    /\ Extractor.cap nat self1 = None
    /\ Extractor.iter nat one_clip self1 = Extractor.Ok (samples, self2)
    /\ Extractor.cap nat self2 = None
    /\ second_iteration one_clip self = Extractor.Ok samples.
Proof.
  apply (iteration_restarts_from_the_file nat one_clip "clip.mp4" 1
           (Extractor.mkVideo nat 25 2 [(0%nat, 0%Q); (1%nat, 40%Q)])).
  reflexivity.
Defined.

(** ** The grouped transcript *)

(** *** The stamp *)

Lemma round_half_even_integer (x : Q) (k : Z) :
  (x == inject_Z k)%Q -> round_half_even x = k.
Proof.
  intro H. unfold round_half_even. cbv zeta.
  assert (F : Qfloor x = k) by (rewrite H; apply Qfloor_Z).
  rewrite F.
  assert (L : (x - inject_Z k < 1 # 2)%Q) by (rewrite H; lra).
  now rewrite (proj1 (Qlt_alt _ _) L).
Qed.

Lemma format_mmss_floor (k : Z) :
  _format_mmss (Some (Qmake k 1000)) false = floor_stamp (Qmake k 1000).
Proof.
  unfold _format_mmss, floor_stamp.
  rewrite (round_half_even_integer _ k).
  - reflexivity.
  - unfold Qeq. simpl. lia.
Qed.

(** *** Every stored timestamp has three decimals *)

Lemma list_remove_incl (x : Detection) (l : list Detection) :
  incl (list_remove x l) l.
Proof.
  induction l as [|y l IH]; simpl; [apply incl_refl|].
  destruct (detection_eqb y x).
  - apply incl_tl, incl_refl.
  - intros z [->|Hz]; [now left | right; now apply IH].
Qed.

Lemma dedup_loop_incl lower ratio t s (l : list Detection) :
  incl (dedup_loop lower ratio t s l) l.
Proof.
  unfold dedup_loop.
  assert (G : forall l acc x,
            In x (fold_left (dedup_step lower ratio t s) l acc) ->
            In x acc \/ In x l).
  { clear l. induction l as [|c l IH]; intros acc x H; simpl in H; [now left|].
    destruct (IH _ _ H) as [H1|H1]; [|right; now right].
    unfold dedup_step in H1.
    destruct (first_match _ _ _ _ c acc) as [e|].
    - destruct (gt (confidence c) (confidence e)); [|now left].
      apply in_app_or in H1 as [H1|[<-|[]]].
      + left. now apply (list_remove_incl e).
      + right. now left.
    - apply in_app_or in H1 as [H1|[<-|[]]]; [now left | right; now left]. }
  intros x H. destruct (G _ _ _ H) as [[]|H']. exact H'.
Qed.

Lemma millis_call lower ratio (w : JsonWriter) (c : Call) :
  Forall millis (data w) -> Forall millis (data (call lower ratio w c)).
Proof.
  intro H. destruct c as [ts bbox txt conf | m | t s]; cbn [call].
  - unfold add. cbn [data]. apply Forall_app. split; [exact H|].
    constructor; [|constructor].
    unfold millis. rewrite timestamp_make. unfold round_nd. eauto.
  - unfold filter_by_confidence. cbn [fst data].
    rewrite Forall_forall in *. intros d Hd. apply filter_In in Hd. now apply H.
  - unfold remove_duplicates.
    destruct (len (data w) <=? 1); [exact H|]. cbn [fst data].
    rewrite Forall_forall in *. intros d Hd.
    apply H. now apply (dedup_loop_incl lower ratio t s).
Qed.

Lemma millis_run lower ratio (calls : list Call) : forall w,
  Forall millis (data w) -> Forall millis (data (run lower ratio w calls)).
Proof.
  unfold run. induction calls as [|c calls IH]; intros w H; simpl; [exact H|].
  apply IH. now apply millis_call.
Qed.

(** *** The stable sort *)

Lemma insert_by_timestamp_In (x y : Detection) (l : list Detection) :
  In y (insert_by_timestamp x l) <-> y = x \/ In y l.
Proof.
  induction l as [|z l IH]; simpl.
  - intuition congruence.
  - destruct (lt (timestamp z) (timestamp x)); simpl.
    + rewrite IH. intuition congruence.
    + intuition congruence.
Qed.

Lemma sorted_by_timestamp_In (y : Detection) (l : list Detection) :
  In y (sorted_by_timestamp l) <-> In y l.
Proof.
  induction l as [|x l IH]; simpl; [tauto|].
  rewrite insert_by_timestamp_In, IH. intuition congruence.
Qed.

Lemma insert_by_timestamp_sorted (x : Detection) (l : list Detection) :
  ts_sorted l -> ts_sorted (insert_by_timestamp x l).
Proof.
  unfold ts_sorted. induction 1 as [|z l Hs IH Hz]; simpl.
  - constructor; constructor.
  - destruct (lt (timestamp z) (timestamp x)) eqn:E.
    + constructor; [exact IH|].
      apply Forall_forall. intros y Hy.
      apply insert_by_timestamp_In in Hy as [->|Hy].
      * apply lt_true in E. lra.
      * rewrite Forall_forall in Hz. now apply Hz.
    + assert (L : (timestamp x <= timestamp z)%Q).
      { apply Qnot_lt_le. intro L. apply lt_true in L. congruence. }
      constructor; [now constructor|].
      constructor; [exact L|].
      eapply Forall_impl; [|exact Hz]. cbv beta. intros y Hy. lra.
Qed.

Lemma sorted_by_timestamp_sorted (l : list Detection) :
  ts_sorted (sorted_by_timestamp l).
Proof.
  induction l as [|x l IH]; simpl.
  - constructor.
  - now apply insert_by_timestamp_sorted.
Qed.

(** Stability: the detections of one timestamp keep their order. *)
Lemma insert_by_timestamp_filter (t : Q) (x : Detection) (l : list Detection) :
  filter (in_bucket t) (insert_by_timestamp x l) = filter (in_bucket t) (x :: l).
Proof.
  induction l as [|z l IH]; [reflexivity|].
  cbn [insert_by_timestamp].
  destruct (lt (timestamp z) (timestamp x)) eqn:E; [|reflexivity].
  cbn [filter] in *. rewrite IH.
  destruct (in_bucket t x) eqn:Px; [|reflexivity].
  destruct (in_bucket t z) eqn:Pz; [|reflexivity].
  unfold in_bucket in Px, Pz.
  apply andb_true_iff in Px as [_ Px]. apply andb_true_iff in Pz as [_ Pz].
  apply Qeq_bool_iff in Px. apply Qeq_bool_iff in Pz.
  apply lt_true in E. lra.
Qed.

Lemma sorted_by_timestamp_filter (t : Q) (l : list Detection) :
  filter (in_bucket t) (sorted_by_timestamp l) = filter (in_bucket t) l.
Proof.
  induction l as [|x l IH]; [reflexivity|].
  cbn [sorted_by_timestamp fold_right].
  rewrite insert_by_timestamp_filter. cbn [filter].
  fold (sorted_by_timestamp l). now rewrite IH.
Qed.

Lemma ts_sorted_snoc_inv (p : list Detection) (d : Detection) :
  ts_sorted (p ++ [d]) ->
  ts_sorted p /\ Forall (fun x => (timestamp x <= timestamp d)%Q) p.
Proof.
  unfold ts_sorted. induction p as [|x p IH]; simpl; intro H.
  - split; constructor.
  - inversion H as [|? ? Hs Hf]; subst.
    destruct (IH Hs) as [S F]. split.
    + constructor; [exact S|].
      apply Forall_app in Hf. tauto.
    + constructor; [|exact F].
      apply Forall_app in Hf as [_ Hd]. now inversion Hd.
Qed.

Lemma StronglySorted_snoc {A} (R : A -> A -> Prop) (l : list A) (a : A) :
  StronglySorted R l -> Forall (fun x => R x a) l -> StronglySorted R (l ++ [a]).
Proof.
  induction 1 as [|x l Hs IH Hx]; simpl; intro F.
  - constructor; constructor.
  - inversion F; subst. constructor; [now apply IH|].
    apply Forall_app. split; [exact Hx|]. now constructor.
Qed.

(** *** The buckets *)

Section Buckets.

Variable f : Q -> list string.

Local Abbreviation assoc := (fun ks : list Q => map (fun k => (k, f k)) ks).

Lemma bucket_mem_assoc (t : Q) (ks : list Q) :
  bucket_mem t (assoc ks) = existsb (fun k => Qeq_bool k t) ks.
Proof.
  induction ks as [|k ks IH]; simpl; [reflexivity|]. now rewrite IH.
Qed.

(** With distinct keys, appending to the bucket of [t] touches the one
    entry whose key equals [t]. *)
Lemma bucket_append_assoc (t : Q) (txt : string) (ks : list Q) :
  StronglySorted Qlt ks ->
  bucket_append t txt (assoc ks)
  = map (fun k => (k, if Qeq_bool k t then f k ++ [txt] else f k)) ks.
Proof.
  induction 1 as [|k ks Hs IH Hk]; simpl; [reflexivity|].
  destruct (Qeq_bool k t) eqn:E.
  - f_equal. apply map_ext_in. intros k' Hk'.
    rewrite Forall_forall in Hk. specialize (Hk _ Hk').
    apply Qeq_bool_iff in E.
    destruct (Qeq_bool k' t) eqn:E'; [|reflexivity].
    apply Qeq_bool_iff in E'. lra.
  - now rewrite IH.
Qed.

Lemma bucket_append_new (t : Q) (txt : string) (b : Buckets) :
  bucket_mem t b = false ->
  bucket_append t txt (b ++ [(t, [])]) = b ++ [(t, [txt])].
Proof.
  induction b as [|[k v] b IH]; simpl; intro H.
  - now rewrite (proj2 (Qeq_bool_iff t t) (Qeq_refl t)).
  - apply orb_false_iff in H as [H1 H2]. rewrite H1. now rewrite IH.
Qed.

End Buckets.

Lemma filter_none {A} (g : A -> bool) (l : list A) :
  (forall x, In x l -> g x = false) -> filter g l = [].
Proof.
  induction l as [|x l IH]; intro H; simpl; [reflexivity|].
  rewrite (H x (or_introl eq_refl)). apply IH. intros y Hy. apply H. now right.
Qed.

Lemma bucket_texts_snoc (p : list Detection) (d : Detection) (t : Q) :
  bucket_texts (p ++ [d]) t
  = bucket_texts p t ++ (if in_bucket t d then [strip (text d)] else []).
Proof.
  unfold bucket_texts. rewrite filter_app, map_app. simpl.
  now destruct (in_bucket t d).
Qed.

Lemma fill_buckets_snoc (p : list Detection) (d : Detection) :
  fill_buckets (p ++ [d]) = bucket_step (fill_buckets p) d.
Proof. unfold fill_buckets. now rewrite fold_left_app. Qed.

Lemma existsb_Qeq_false (t : Q) (ks : list Q) (k : Q) :
  existsb (fun k => Qeq_bool k t) ks = false -> In k ks -> Qeq_bool k t = false.
Proof.
  intros H Hk. destruct (Qeq_bool k t) eqn:E; [|reflexivity].
  rewrite <- H. symmetry. apply existsb_exists. eauto.
Qed.

(** Over a list in ascending timestamp order the loop builds one bucket
    per timestamp that carries a non-blank text; the keys ascend strictly
    and each bucket holds the texts of its timestamp in list order. *)
Lemma fill_buckets_sorted (s : list Detection) :
  ts_sorted s ->
  exists ks : list Q,
    StronglySorted Qlt ks
    /\ (forall k, In k ks ->
          exists d, In d s /\ nonblank d = true /\ timestamp d = k)
    /\ (forall d, In d s -> nonblank d = true ->
          existsb (fun k => Qeq_bool k (timestamp d)) ks = true)
    /\ fill_buckets s = map (fun k => (k, bucket_texts s k)) ks.
Proof.
  induction s as [|d p IH] using rev_ind; intro S.
  - exists []. repeat split; try constructor; intros; contradiction.
  - apply ts_sorted_snoc_inv in S as [Sp Fd].
    destruct (IH Sp) as (ks & Hks & Hfrom & Hall & Hfill). clear IH.
    rewrite fill_buckets_snoc, Hfill. unfold bucket_step.
    assert (N' : is_empty (strip (text d)) = negb (nonblank d))
      by (unfold nonblank; now rewrite negb_involutive).
    rewrite N'. clear N'.
    destruct (nonblank d) eqn:N; cbn [negb].
    + (* [d] carries a text *)
      rewrite bucket_mem_assoc.
      destruct (existsb (fun k => Qeq_bool k (timestamp d)) ks) eqn:M.
      * (* its bucket exists *)
        exists ks. split; [exact Hks|]. split; [|split].
        -- intros k Hk. destruct (Hfrom k Hk) as (x & Hx & Hn & Ht).
           exists x. split; [apply in_or_app; now left | tauto].
        -- intros x Hx Hn. apply in_app_or in Hx as [Hx|[<-|[]]]; auto.
        -- rewrite bucket_append_assoc by exact Hks.
           apply map_ext. intro k. rewrite bucket_texts_snoc.
           unfold in_bucket. rewrite N. cbn [andb].
           destruct (Qeq_bool k (timestamp d)); [reflexivity|].
           now rewrite app_nil_r.
      * (* a new bucket is opened at the end *)
        exists (ks ++ [timestamp d]). split; [|split; [|split]].
        -- apply StronglySorted_snoc; [exact Hks|].
           apply Forall_forall. intros k Hk.
           destruct (Hfrom k Hk) as (x & Hx & _ & <-).
           rewrite Forall_forall in Fd. specialize (Fd x Hx).
           pose proof (existsb_Qeq_false _ _ _ M Hk) as E.
           apply Qle_lteq in Fd as [L|L]; [exact L|].
           apply Qeq_bool_iff in L. congruence.
        -- intros k Hk. apply in_app_or in Hk as [Hk|[<-|[]]].
           ++ destruct (Hfrom k Hk) as (x & Hx & Hn & Ht).
              exists x. split; [apply in_or_app; now left | tauto].
           ++ exists d. split; [apply in_or_app; right; now left | tauto].
        -- intros x Hx Hn. rewrite existsb_app.
           apply in_app_or in Hx as [Hx|[<-|[]]].
           ++ rewrite (Hall x Hx Hn). reflexivity.
           ++ simpl. rewrite (proj2 (Qeq_bool_iff _ _) (Qeq_refl _)).
              now rewrite orb_true_r.
        -- rewrite bucket_append_new by now rewrite bucket_mem_assoc.
           rewrite map_app. cbn [map]. f_equal.
           ++ apply map_ext_in. intros k Hk. rewrite bucket_texts_snoc.
              unfold in_bucket. rewrite (existsb_Qeq_false _ _ _ M Hk).
              rewrite andb_false_r. now rewrite app_nil_r.
           ++ rewrite bucket_texts_snoc. unfold in_bucket.
              rewrite N, (proj2 (Qeq_bool_iff _ _) (Qeq_refl _)). cbn [andb].
              assert (E : bucket_texts p (timestamp d) = []).
              { unfold bucket_texts.
                rewrite filter_none; [reflexivity|].
                intros x Hx. unfold in_bucket.
                destruct (nonblank x) eqn:Nx; [|reflexivity]. cbn [andb].
                destruct (Qeq_bool (timestamp d) (timestamp x)) eqn:E;
                  [|reflexivity].
                apply Qeq_bool_iff in E.
                pose proof (Hall x Hx Nx) as Hex.
                apply existsb_exists in Hex as (k & Hk & Hkx).
                pose proof (existsb_Qeq_false _ _ _ M Hk) as Hkd.
                apply Qeq_bool_iff in Hkx.
                assert (Hkd' : (k == timestamp d)%Q) by lra.
                apply Qeq_bool_iff in Hkd'. congruence. }
              now rewrite E.
    + (* [d] has no text: the buckets are left as they are *)
      exists ks. split; [exact Hks|]. split; [|split].
      * intros k Hk. destruct (Hfrom k Hk) as (x & Hx & Hn & Ht).
        exists x. split; [apply in_or_app; now left | tauto].
      * intros x Hx Hn. apply in_app_or in Hx as [Hx|[<-|[]]]; auto.
        congruence.
      * apply map_ext. intro k. rewrite bucket_texts_snoc.
        unfold in_bucket. rewrite N. cbn [andb]. now rewrite app_nil_r.
Qed.

(** *** The lines *)

Lemma nonblank_true (d : Detection) :
  nonblank d = true <-> strip (text d) <> ""%string.
Proof.
  unfold nonblank. destruct (strip (text d)); simpl; split;
    congruence || discriminate.
Qed.

Lemma grouped_transcript_of_millis (w : JsonWriter) (sep : string) :
  Forall millis (data w) ->
  exists keys : list Q,
    StronglySorted Qlt keys
    /\ (forall t, InA Qeq t keys <->
          exists d, In d (data w) /\ strip (text d) <> ""%string
                    /\ (timestamp d == t)%Q)
    /\ length (export_grouped_text w sep false) = length keys
    /\ export_grouped_text w sep false = map (transcript_line sep (data w)) keys.
Proof.
  intro Hm.
  destruct (fill_buckets_sorted _ (sorted_by_timestamp_sorted (data w)))
    as (ks & Hks & Hfrom & Hall & Hfill).
  assert (Hlines : export_grouped_text w sep false
                   = map (transcript_line sep (data w)) ks).
  { unfold export_grouped_text. rewrite Hfill, map_map.
    apply map_ext_in. intros k Hk.
    destruct (Hfrom k Hk) as (d & Hd & _ & <-).
    apply (proj1 (sorted_by_timestamp_In _ _)) in Hd.
    rewrite Forall_forall in Hm. destruct (Hm d Hd) as [n Hn].
    unfold transcript_line, bucket_texts.
    rewrite sorted_by_timestamp_filter, Hn, format_mmss_floor. reflexivity. }
  exists ks. split; [exact Hks|]. split; [|split].
  - intro t. rewrite InA_alt. split.
    + intros (k & Htk & Hk).
      destruct (Hfrom k Hk) as (d & Hd & Hn & <-).
      exists d. split; [now apply (proj1 (sorted_by_timestamp_In _ _))|].
      split; [now apply (proj1 (nonblank_true _)) | now symmetry].
    + intros (d & Hd & Hn & Ht).
      apply (proj2 (sorted_by_timestamp_In _ _)) in Hd.
      apply (proj2 (nonblank_true _)) in Hn.
      pose proof (Hall d Hd Hn) as Hex.
      apply existsb_exists in Hex as (k & Hk & Hkd).
      apply Qeq_bool_iff in Hkd.
      exists k. split; [|exact Hk]. rewrite <- Ht. now symmetry.
  - now rewrite Hlines, length_map.
  - exact Hlines.
Qed.

(** C7.  For a store built by calls to [add], [filter_by_confidence] and
    [remove_duplicates], the grouped transcript has one line per distinct
    timestamp among the detections whose trimmed text is not empty: the
    lines follow a strictly ascending list [keys] of exactly these
    timestamps, and the line of [t] is the stamp of [t] floored to whole
    seconds, then [" - "], then the texts stored at [t], in insertion
    order, joined by the separator. *)
Theorem grouped_transcript_lines lower ratio (now path : string)
    (calls : list Call) (sep : string) :
  let w := run lower ratio (init now path) calls in
  exists keys : list Q,
    StronglySorted Qlt keys
    /\ (forall t, InA Qeq t keys <->
          exists d, In d (data w) /\ strip (text d) <> ""%string
                    /\ (timestamp d == t)%Q)
    /\ length (export_grouped_text w sep false) = length keys
    /\ export_grouped_text w sep false = map (transcript_line sep (data w)) keys.
Proof.
  cbv zeta. apply grouped_transcript_of_millis.
  apply millis_run. constructor.
Qed.

(** The end-to-end scenario of the specification: "hello" with confidence
    0.92 at 1.000 s gives the single line [[00:01] - hello]. *)
Example grouped_transcript_hello :
  export_grouped_text (add new_store 1 unit_box "hello" (92 # 100)) " | " false
  = ["[00:01] - hello"%string].
Proof. reflexivity. Qed.

Example grouped_transcript_merges_equal_timestamps :
  export_grouped_text
    (add (add (add new_store (25 # 10) unit_box "b" (9 # 10))
              1 unit_box "a" (9 # 10))
         (5 # 2) unit_box " c " (9 # 10))
    " | " false
  = ["[00:01] - a"; "[00:02] - b | c"]%string.
Proof. reflexivity. Qed.

Example similarity_hello_hallo : (Difflib.ratio "hello" "hallo" == 8 # 10)%Q.
Proof. reflexivity. Qed.

(** * Further properties of the code *)

(** ** strip *)

Lemma rstrip_cons (c : ascii) (r : string) :
  rstrip (String c r)
  = match rstrip r with
    | EmptyString => if is_space c then EmptyString else String c EmptyString
    | r' => String c r'
    end.
Proof. reflexivity. Qed.

Lemma rstrip_idempotent (s : string) : rstrip (rstrip s) = rstrip s.
Proof.
  induction s as [|c r IH]; [reflexivity|].
  rewrite rstrip_cons. destruct (rstrip r) as [|c' r'] eqn:E.
  - destruct (is_space c) eqn:S; [reflexivity|].
    rewrite rstrip_cons. cbn [rstrip]. now rewrite S.
  - rewrite (rstrip_cons c (String c' r')), IH. reflexivity.
Qed.

Lemma lstrip_head (s : string) :
  match lstrip s with
  | EmptyString => True
  | String c _ => is_space c = false
  end.
Proof.
  induction s as [|c r IH]; [exact I|].
  cbn [lstrip]. destruct (is_space c) eqn:S; [exact IH | exact S].
Qed.

Lemma lstrip_rstrip (s : string) :
  match s with
  | EmptyString => True
  | String c _ => is_space c = false
  end ->
  lstrip (rstrip s) = rstrip s.
Proof.
  destruct s as [|c r]; [reflexivity|]. intro H.
  rewrite rstrip_cons. destruct (rstrip r); rewrite ?H; cbn [lstrip]; now rewrite H.
Qed.

Lemma strip_idempotent (s : string) : strip (strip s) = strip s.
Proof.
  unfold strip. rewrite (lstrip_rstrip (lstrip s) (lstrip_head s)).
  apply rstrip_idempotent.
Qed.

(** ** What every stored detection satisfies *)

Lemma make_detection_well_formed w ts bbox txt conf :
  well_formed (make_detection w ts bbox txt conf).
Proof.
  destruct bbox as [[[a b] c] d]. unfold well_formed, make_detection.
  cbn [text text_length timestamp confidence detection_id].
  split; [apply strip_idempotent|].
  split; [reflexivity|].
  split; [unfold millis, round_nd; cbn [timestamp]; eauto|].
  split; [unfold four_decimals, round_nd; cbn [confidence]; eauto|].
  unfold len. lia.
Qed.

(** A property of detections that [add] establishes holds throughout a
    store, whatever is called on it: the other methods only take
    detections out. *)
Lemma Forall_call (P : Detection -> Prop) lower ratio (w : JsonWriter) (c : Call) :
  (forall w ts bbox txt conf, P (make_detection w ts bbox txt conf)) ->
  Forall P (data w) -> Forall P (data (call lower ratio w c)).
Proof.
  intros HP H. destruct c as [ts bbox txt conf | m | t s]; cbn [call].
  - unfold add. cbn [data]. apply Forall_app. split; [exact H|].
    constructor; [apply HP | constructor].
  - unfold filter_by_confidence. cbn [fst data].
    rewrite Forall_forall in *. intros d Hd. apply filter_In in Hd. now apply H.
  - unfold remove_duplicates.
    destruct (len (data w) <=? 1); [exact H|]. cbn [fst data].
    rewrite Forall_forall in *. intros d Hd.
    apply H. now apply (dedup_loop_incl lower ratio t s).
Qed.

Lemma Forall_run (P : Detection -> Prop) lower ratio (calls : list Call) :
  (forall w ts bbox txt conf, P (make_detection w ts bbox txt conf)) ->
  forall w, Forall P (data w) -> Forall P (data (run lower ratio w calls)).
Proof.
  intro HP. unfold run.
  induction calls as [|c calls IH]; intros w H; simpl; [exact H|].
  apply IH. now apply Forall_call.
Qed.

(** X1.  In a store built by [add], [filter_by_confidence] and
    [remove_duplicates] every detection has a text that is already trimmed,
    a [text_length] that is the length of this text, a timestamp with at
    most three decimals, a confidence with at most four, and an id of at
    least 1. *)
Theorem stored_detections_well_formed lower ratio (now path : string)
    (calls : list Call) :
  Forall well_formed (data (run lower ratio (init now path) calls)).
Proof.
  apply Forall_run.
  - exact make_detection_well_formed.
  - constructor.
Qed.

(** ** Ids in a store that only saw add *)

Lemma created_adds_only lower ratio (calls : list Call) : forall w,
  forallb is_add calls = true ->
  data (run lower ratio w calls) = data w ++ created lower ratio w calls
  /\ map detection_id (created lower ratio w calls)
     = map (fun k => len (data w) + Z.of_nat k) (seq 1 (length calls)).
Proof.
  induction calls as [|c calls IH]; intros w H.
  - simpl. now rewrite app_nil_r.
  - cbn [forallb] in H. apply andb_true_iff in H as [Hc H].
    destruct c as [ts bbox txt conf | m | t s]; try discriminate.
    destruct (IH (call lower ratio w (CallAdd ts bbox txt conf)) H) as [D I].
    cbn [call] in D, I. rewrite len_data_add in I.
    change (run lower ratio w (CallAdd ts bbox txt conf :: calls))
      with (run lower ratio (add w ts bbox txt conf) calls).
    cbn [created call length]. split.
    + rewrite D. unfold add at 1. cbn [data]. now rewrite <- app_assoc.
    + cbn [seq map]. rewrite detection_id_make, I. f_equal.
      rewrite <- (seq_shift (length calls) 1), map_map.
      apply map_ext. intro k. lia.
Qed.

(** X2.  In a store that was only ever written by [add], the id of a
    detection is its position counted from 1. *)
Theorem detection_ids_are_positions lower ratio (now path : string)
    (calls : list Call) :
  forallb is_add calls = true ->
  map detection_id (data (run lower ratio (init now path) calls))
  = map Z.of_nat (seq 1 (length calls)).
Proof.
  intro H.
  destruct (created_adds_only lower ratio calls (init now path) H) as [D I].
  rewrite D. cbn [init data app]. rewrite I.
  apply map_ext. intro k. unfold len. simpl. lia.
Qed.

Lemma detection_ids_are_positions_witness :
  map detection_id
      (data (run Difflib.lower Difflib.ratio (init "t" "out.json")
               [CallAdd 1 unit_box "a" (9 # 10); CallAdd 2 unit_box "b" (2 # 10)]))
  = map Z.of_nat (seq 1 2).
Proof.
  apply (detection_ids_are_positions Difflib.lower Difflib.ratio "t" "out.json"
           [CallAdd 1 unit_box "a" (9 # 10); CallAdd 2 unit_box "b" (2 # 10)]).
  reflexivity.
Defined.

(** ** filter_by_confidence, composed *)

Lemma filter_by_confidence_data w c :
  data (fst (filter_by_confidence w c))
  = filter (fun d => ge (confidence d) c) (data w).
Proof. reflexivity. Qed.

Lemma filter_idem {A} (f : A -> bool) (l : list A) :
  filter f (filter f l) = filter f l.
Proof.
  induction l as [|x l IH]; simpl; [reflexivity|].
  destruct (f x) eqn:E; simpl; [rewrite E|]; now rewrite IH.
Qed.

Lemma filter_filter {A} (f g : A -> bool) (l : list A) :
  filter f (filter g l) = filter (fun x => g x && f x) l.
Proof.
  induction l as [|x l IH]; simpl; [reflexivity|].
  destruct (g x); simpl; [destruct (f x)|]; now rewrite IH.
Qed.

(** X3.  Filtering a second time with the same threshold removes nothing
    and returns the store as the first call left it. *)
Theorem filter_by_confidence_idempotent (w : JsonWriter) (c : Q) :
  filter_by_confidence (fst (filter_by_confidence w c)) c
  = (fst (filter_by_confidence w c), 0).
Proof.
  set (once := fst (filter_by_confidence w c)).
  assert (D : filter (fun d => ge (confidence d) c) (data once) = data once).
  { subst once. rewrite filter_by_confidence_data. apply filter_idem. }
  unfold filter_by_confidence at 1. rewrite D, Z.sub_diag. cbn.
  now destruct once.
Qed.

Lemma ge_larger (x c1 c2 : Q) :
  ge x (larger c1 c2) = ge x c1 && ge x c2.
Proof.
  unfold larger. destruct (Qle_bool c1 c2) eqn:E.
  - apply Qle_bool_iff in E.
    destruct (ge x c2) eqn:G2.
    + apply ge_true in G2. rewrite andb_true_r. symmetry. apply ge_true. lra.
    + now rewrite andb_false_r.
  - assert (L : (c2 < c1)%Q).
    { apply Qnot_le_lt. intro H. apply Qle_bool_iff in H. congruence. }
    destruct (ge x c1) eqn:G1; [|reflexivity].
    apply ge_true in G1. symmetry. apply ge_true. lra.
Qed.

(** X4.  Two filters in a row keep what one filter with the larger of the
    two thresholds keeps, so the order of the two calls does not matter;
    the numbers removed add up. *)
Theorem filter_by_confidence_twice (w : JsonWriter) (c1 c2 : Q) :
  let first := filter_by_confidence w c1 in
  let second := filter_by_confidence (fst first) c2 in
  data (fst second) = data (fst (filter_by_confidence w (larger c1 c2)))
  /\ data (fst second)
     = data (fst (filter_by_confidence (fst (filter_by_confidence w c2)) c1))
  /\ snd first + snd second
     = snd (filter_by_confidence w (larger c1 c2)).
Proof.
  cbv zeta.
  assert (E : forall a b,
    data (fst (filter_by_confidence (fst (filter_by_confidence w a)) b))
    = data (fst (filter_by_confidence w (larger a b)))).
  { intros a b. rewrite !filter_by_confidence_data, filter_filter.
    apply filter_ext. intro d. now rewrite ge_larger. }
  split; [apply E|]. split.
  - rewrite !E. rewrite !filter_by_confidence_data.
    apply filter_ext. intro d. rewrite !ge_larger. apply andb_comm.
  - specialize (E c1 c2). apply (f_equal len) in E.
    unfold filter_by_confidence in *. cbn [fst snd data] in *. lia.
Qed.

(** ** remove_duplicates: what survives *)

Lemma subseq_refl {A} (l : list A) : subseq l l.
Proof.
  induction l as [|x l IH]; [apply subseq_nil | now apply subseq_keep].
Qed.

Lemma subseq_snoc {A} (l1 l2 : list A) (c : A) :
  subseq l1 l2 -> subseq (l1 ++ [c]) (l2 ++ [c]).
Proof.
  induction 1; simpl.
  - apply subseq_keep, subseq_nil.
  - now apply subseq_skip.
  - now apply subseq_keep.
Qed.

Lemma subseq_snoc_skip {A} (l1 l2 : list A) (c : A) :
  subseq l1 l2 -> subseq l1 (l2 ++ [c]).
Proof.
  induction 1; simpl.
  - apply subseq_skip, subseq_nil.
  - now apply subseq_skip.
  - now apply subseq_keep.
Qed.

Lemma subseq_list_remove (e : Detection) (l1 l2 : list Detection) :
  subseq l1 l2 -> subseq (list_remove e l1) l2.
Proof.
  induction 1 as [|x l1 l2 H IH|x l1 l2 H IH]; simpl.
  - apply subseq_nil.
  - now apply subseq_skip.
  - destruct (detection_eqb x e); [now apply subseq_skip | now apply subseq_keep].
Qed.

Lemma subseq_length {A} (l1 l2 : list A) :
  subseq l1 l2 -> (length l1 <= length l2)%nat.
Proof. induction 1; simpl; lia. Qed.

Lemma subseq_incl {A} (l1 l2 : list A) : subseq l1 l2 -> incl l1 l2.
Proof.
  induction 1 as [|x l1 l2 H IH|x l1 l2 H IH]; intros y Hy.
  - exact Hy.
  - right. now apply IH.
  - destruct Hy as [->|Hy]; [now left | right; now apply IH].
Qed.

Section DedupSurvivors.

Variable lower : string -> string.
Variable ratio : string -> string -> Q.
Variables time_threshold similarity_threshold : Q.

Local Abbreviation fmatch := (first_match lower ratio time_threshold similarity_threshold).
Local Abbreviation step := (dedup_step lower ratio time_threshold similarity_threshold).
Local Abbreviation loop := (dedup_loop lower ratio time_threshold similarity_threshold).
Local Abbreviation dup := (duplicates lower ratio time_threshold similarity_threshold).

Lemma dedup_step_subseq (acc pre : list Detection) (c : Detection) :
  subseq acc pre -> subseq (step acc c) (pre ++ [c]).
Proof.
  intro H. unfold dedup_step.
  destruct (fmatch c acc) as [e|].
  - destruct (gt (confidence c) (confidence e)).
    + apply subseq_snoc. now apply subseq_list_remove.
    + now apply subseq_snoc_skip.
  - now apply subseq_snoc.
Qed.

Lemma fold_dedup_subseq (l : list Detection) : forall acc pre,
  subseq acc pre -> subseq (fold_left step l acc) (pre ++ l).
Proof.
  induction l as [|c l IH]; intros acc pre H; simpl.
  - now rewrite app_nil_r.
  - replace (pre ++ c :: l) with ((pre ++ [c]) ++ l)
      by now rewrite <- app_assoc.
    apply IH. now apply dedup_step_subseq.
Qed.

Lemma dedup_loop_subseq (l : list Detection) : subseq (loop l) l.
Proof. apply (fold_dedup_subseq l [] []). constructor. Qed.

Lemma dedup_step_nonempty (acc : list Detection) (c : Detection) :
  step acc c <> [].
Proof.
  unfold dedup_step. destruct (fmatch c acc) as [e|] eqn:E.
  - destruct (gt (confidence c) (confidence e)).
    + intro H. apply app_eq_nil in H as [_ H]. discriminate.
    + apply first_match_In in E. intro H. rewrite H in E. contradiction.
  - intro H. apply app_eq_nil in H as [_ H]. discriminate.
Qed.

Lemma dedup_loop_nonempty (l : list Detection) : l <> [] -> loop l <> [].
Proof.
  intro H. destruct l as [|c l] using rev_ind; [contradiction|].
  rewrite dedup_loop_snoc. apply dedup_step_nonempty.
Qed.

(** Every detection met so far is matched in confidence by an accepted
    one. *)
Lemma dedup_step_covers (acc : list Detection) (c x : Detection) :
  (exists y, In y acc /\ (confidence x <= confidence y)%Q) \/ x = c ->
  exists y, In y (step acc c) /\ (confidence x <= confidence y)%Q.
Proof.
  unfold dedup_step. destruct (fmatch c acc) as [e|] eqn:E.
  - destruct (gt (confidence c) (confidence e)) eqn:G.
    + apply gt_true in G. intros [(y & Hy & L) | ->].
      * destruct (detection_eqb y e) eqn:Q.
        -- exists c. split; [apply in_or_app; right; now left|].
           unfold detection_eqb in Q. rewrite !andb_true_iff in Q.
           destruct Q as [[[_ Q] _] _]. apply Qeq_bool_iff in Q. lra.
        -- exists y. split; [|exact L]. apply in_or_app. left.
           clear - Hy Q. induction acc as [|z acc IH]; [contradiction|].
           simpl. destruct (detection_eqb z e) eqn:Z.
           ++ destruct Hy as [->|Hy]; [congruence | exact Hy].
           ++ destruct Hy as [->|Hy]; [now left | right; now apply IH].
      * exists c. split; [apply in_or_app; right; now left | lra].
    + intros [H | ->]; [exact H|].
      exists e. split; [now apply first_match_In in E|].
      apply Qnot_lt_le. intro L. apply gt_true in L. congruence.
  - intros [(y & Hy & L) | ->].
    + exists y. split; [apply in_or_app; now left | exact L].
    + exists c. split; [apply in_or_app; right; now left | lra].
Qed.

Lemma fold_dedup_covers (l : list Detection) : forall acc x,
  (exists y, In y acc /\ (confidence x <= confidence y)%Q) \/ In x l ->
  exists y, In y (fold_left step l acc) /\ (confidence x <= confidence y)%Q.
Proof.
  induction l as [|c l IH]; intros acc x H; simpl.
  - destruct H as [H|[]]. exact H.
  - apply IH. destruct H as [H|[<-|H]].
    + left. apply dedup_step_covers. now left.
    + left. apply dedup_step_covers. now right.
    + now right.
Qed.

Lemma dedup_loop_covers (l : list Detection) (x : Detection) :
  In x l ->
  exists y, In y (loop l) /\ (confidence x <= confidence y)%Q.
Proof. intro H. apply fold_dedup_covers. now right. Qed.

(** A list in which no detection duplicates an earlier one is settled. *)
Lemma settled_of_pairs (l : list Detection) : forall acc,
  (forall c, In c l -> Forall (fun x => ~ dup c x) acc) ->
  ForallOrdPairs (fun x c => ~ dup c x) l ->
  settled_from lower ratio time_threshold similarity_threshold acc l = true.
Proof.
  induction l as [|c l IH]; intros acc Hacc Hp; [reflexivity|].
  inversion Hp as [|? ? Hc Hl]; subst. cbn [settled_from].
  rewrite (proj2 (first_match_none lower ratio _ _ c acc)
                 (Hacc c (or_introl eq_refl))).
  apply IH; [|exact Hl].
  intros c' Hc'. apply Forall_app. split.
  - apply Hacc. now right.
  - constructor; [|constructor].
    rewrite Forall_forall in Hc. now apply Hc.
Qed.

Lemma dedup_loop_settled (l : list Detection) :
  ForallOrdPairs (fun x c => ~ dup c x) l -> loop l = l.
Proof.
  intro H. unfold dedup_loop.
  rewrite settled_pass; [reflexivity|].
  apply settled_of_pairs; [|exact H]. intros; constructor.
Qed.

(** With a negative time window nothing is ever a duplicate. *)
Lemma first_match_negative_window (c : Detection) (l : list Detection) :
  (time_threshold < 0)%Q -> fmatch c l = None.
Proof.
  intro H. apply first_match_none. apply Forall_forall.
  intros x _ [D _].
  pose proof (Qabs_nonneg (timestamp c - timestamp x)). lra.
Qed.

End DedupSurvivors.

Lemma remove_duplicates_unchanged lower ratio t s (w : JsonWriter) :
  dedup_loop lower ratio t s (data w) = data w ->
  remove_duplicates lower ratio t s w = (w, 0).
Proof.
  intro H. unfold remove_duplicates.
  destruct (len (data w) <=? 1); [reflexivity|].
  rewrite H, Z.sub_diag. cbn. now destruct w.
Qed.

(** X5.  [remove_duplicates] leaves a sub-sequence of the list it was
    given: the detections it keeps are unchanged and in insertion order
    (a candidate that replaces an accepted entry is the latest one met). *)
Theorem remove_duplicates_keeps_order lower ratio t s (w : JsonWriter) :
  subseq (data (fst (remove_duplicates lower ratio t s w))) (data w).
Proof.
  unfold remove_duplicates.
  destruct (len (data w) <=? 1); cbn [fst data].
  - apply subseq_refl.
  - apply dedup_loop_subseq.
Qed.

(** X6.  The count [remove_duplicates] reports is the number of detections
    it took out; it is never negative, and a store that held a detection
    still holds one afterwards. *)
Theorem remove_duplicates_count lower ratio t s (w : JsonWriter) :
  let w' := fst (remove_duplicates lower ratio t s w) in
  let removed := snd (remove_duplicates lower ratio t s w) in
  removed = len (data w) - len (data w')
  /\ 0 <= removed
  /\ (data w <> [] -> data w' <> [] /\ removed < len (data w)).
Proof.
  cbv zeta. unfold remove_duplicates.
  destruct (len (data w) <=? 1) eqn:E; cbn [fst snd data].
  - split; [lia|]. split; [lia|]. intro H. split; [exact H|].
    destruct (data w); [contradiction | unfold len; simpl; lia].
  - pose proof (dedup_loop_length lower ratio t s (data w)) as L.
    split; [reflexivity|]. split; [lia|]. intro H.
    pose proof (dedup_loop_nonempty lower ratio t s (data w) H) as N.
    split; [exact N|].
    destruct (dedup_loop lower ratio t s (data w)); [contradiction|].
    unfold len. simpl. lia.
Qed.

(** X7.  [remove_duplicates] never loses the best confidence: for every
    detection of the store there is one left whose confidence is at least
    as high. *)
Theorem remove_duplicates_keeps_best lower ratio t s (w : JsonWriter)
    (d : Detection) :
  In d (data w) ->
  exists d', In d' (data (fst (remove_duplicates lower ratio t s w)))
             /\ (confidence d <= confidence d')%Q.
Proof.
  intro H. unfold remove_duplicates.
  destruct (len (data w) <=? 1); cbn [fst data].
  - exists d. split; [exact H | lra].
  - now apply dedup_loop_covers.
Qed.

Lemma remove_duplicates_keeps_best_witness :
  exists d', In d' (data (fst (remove_duplicates Difflib.lower Difflib.ratio
                                 1 (7 # 10) hello_hallo_store)))
             /\ (confidence hello_detection <= confidence d')%Q.
Proof.
  apply (remove_duplicates_keeps_best Difflib.lower Difflib.ratio 1 (7 # 10)
           hello_hallo_store hello_detection).
  left. reflexivity.
Defined.

(** X8.  A store in which no detection is a duplicate of an earlier one
    (inside the time window and similar enough) is returned unchanged, with
    a count of 0. *)
Theorem remove_duplicates_without_duplicates lower ratio t s (w : JsonWriter) :
  ForallOrdPairs (fun x c => ~ duplicates lower ratio t s c x) (data w) ->
  remove_duplicates lower ratio t s w = (w, 0).
Proof.
  intro H. apply remove_duplicates_unchanged. now apply dedup_loop_settled.
Qed.

Lemma remove_duplicates_without_duplicates_witness :
  remove_duplicates Difflib.lower Difflib.ratio 1 (9 # 10) a_b_store
  = (a_b_store, 0).
Proof.
  apply (remove_duplicates_without_duplicates Difflib.lower Difflib.ratio
           1 (9 # 10) a_b_store).
  constructor.
  - constructor; [|constructor]. intros [_ H]. vm_compute in H. now apply H.
  - constructor; constructor.
Defined.

(** X9.  With a negative [time_threshold] no two detections are ever
    compared for similarity: the store is returned unchanged whatever the
    texts and the similarity threshold are. *)
Theorem remove_duplicates_negative_window lower ratio t s (w : JsonWriter) :
  (t < 0)%Q -> remove_duplicates lower ratio t s w = (w, 0).
Proof.
  intro H. apply remove_duplicates_unchanged.
  unfold dedup_loop.
  assert (G : forall l acc,
            fold_left (dedup_step lower ratio t s) l acc = acc ++ l).
  { induction l as [|c l IH]; intro acc; simpl; [now rewrite app_nil_r|].
    unfold dedup_step at 2.
    rewrite (first_match_negative_window lower ratio t s c acc H).
    rewrite IH, <- app_assoc. reflexivity. }
  apply G.
Qed.

Lemma remove_duplicates_negative_window_witness :
  remove_duplicates Difflib.lower Difflib.ratio (-1) 0 two_x_store
  = (two_x_store, 0).
Proof.
  apply (remove_duplicates_negative_window Difflib.lower Difflib.ratio (-1) 0
           two_x_store).
  reflexivity.
Defined.

Lemma remove_duplicates_count_witness :
  let w' := fst (remove_duplicates Difflib.lower Difflib.ratio 1 (7 # 10)
                   hello_hallo_store) in
  let removed := snd (remove_duplicates Difflib.lower Difflib.ratio 1 (7 # 10)
                        hello_hallo_store) in
  data w' <> [] /\ removed < len (data hello_hallo_store).
Proof.
  apply (remove_duplicates_count Difflib.lower Difflib.ratio 1 (7 # 10)
           hello_hallo_store).
  discriminate.
Defined.

(** ** get_statistics *)

Import Report.

(** [min] returns an element of the list that is below all of them. *)
Lemma min_of_spec (xs : list Q) : forall m,
  (Paddle.min_of m xs <= m)%Q
  /\ (forall y, In y xs -> (Paddle.min_of m xs <= y)%Q)
  /\ In (Paddle.min_of m xs) (m :: xs).
Proof.
  unfold Paddle.min_of. induction xs as [|x xs IH]; intro m; simpl.
  - split; [lra|]. split; [tauto | now left].
  - destruct (IH (if lt x m then x else m)) as (A & B & C).
    destruct (lt x m) eqn:E.
    + apply lt_true in E. split; [lra|]. split.
      * intros y [<-|Hy]; [exact A | now apply B].
      * destruct C as [C|C]; [right; left; exact C | right; now right].
    + assert (L : (m <= x)%Q).
      { apply Qnot_lt_le. intro L. apply lt_true in L. congruence. }
      split; [exact A|]. split.
      * intros y [<-|Hy]; [lra | now apply B].
      * destruct C as [C|C]; [now left | right; now right].
Qed.

Lemma max_of_spec (xs : list Q) : forall m,
  (m <= Paddle.max_of m xs)%Q
  /\ (forall y, In y xs -> (y <= Paddle.max_of m xs)%Q)
  /\ In (Paddle.max_of m xs) (m :: xs).
Proof.
  unfold Paddle.max_of. induction xs as [|x xs IH]; intro m; simpl.
  - split; [lra|]. split; [tauto | now left].
  - destruct (IH (if gt x m then x else m)) as (A & B & C).
    destruct (gt x m) eqn:E.
    + apply gt_true in E. split; [lra|]. split.
      * intros y [<-|Hy]; [exact A | now apply B].
      * destruct C as [C|C]; [right; left; exact C | right; now right].
    + assert (L : (x <= m)%Q).
      { apply Qnot_lt_le. intro L. apply gt_true in L. congruence. }
      split; [exact A|]. split.
      * intros y [<-|Hy]; [lra | now apply B].
      * destruct C as [C|C]; [now left | right; now right].
Qed.

Lemma fold_min_spec (xs : list Z) : forall m,
  fold_left Z.min xs m <= m
  /\ (forall y, In y xs -> fold_left Z.min xs m <= y)
  /\ In (fold_left Z.min xs m) (m :: xs).
Proof.
  induction xs as [|x xs IH]; intro m; simpl.
  - split; [lia|]. split; [tauto | now left].
  - destruct (IH (Z.min m x)) as (A & B & C). split; [lia|]. split.
    + intros y [<-|Hy]; [lia | now apply B].
    + destruct C as [C|C]; [|right; now right].
      rewrite <- C. destruct (Z.min_spec m x) as [[_ ->]|[_ ->]];
        [now left | right; now left].
Qed.

Lemma fold_max_spec (xs : list Z) : forall m,
  m <= fold_left Z.max xs m
  /\ (forall y, In y xs -> y <= fold_left Z.max xs m)
  /\ In (fold_left Z.max xs m) (m :: xs).
Proof.
  induction xs as [|x xs IH]; intro m; simpl.
  - split; [lia|]. split; [tauto | now left].
  - destruct (IH (Z.max m x)) as (A & B & C). split; [lia|]. split.
    + intros y [<-|Hy]; [lia | now apply B].
    + destruct C as [C|C]; [|right; now right].
      rewrite <- C. destruct (Z.max_spec m x) as [[_ ->]|[_ ->]];
        [right; now left | now left].
Qed.

(** X10.  [get_statistics] answers with the message exactly for an empty
    store.  Otherwise the total is the number of detections held; the
    number of confidences above 0.8 lies between 0 and the total, and the
    number of distinct texts between 1 and the total. *)
Theorem get_statistics_counts (w : JsonWriter) :
  match get_statistics w with
  | NoDataYet => data w = []
  | StatsOf st =>
      data w <> []
      /\ stats_total_detections st = len (data w)
      /\ 0 <= high_confidence_count st <= stats_total_detections st
      /\ 1 <= unique_texts st <= stats_total_detections st
  end.
Proof.
  unfold get_statistics. destruct (data w) as [|d rest] eqn:E; [reflexivity|].
  cbn [stats_total_detections high_confidence_count unique_texts].
  split; [discriminate|]. split; [reflexivity|]. split.
  - pose proof (len_filter_le (fun c => gt c (8 # 10))
                  (map confidence (d :: rest))) as L.
    unfold len in *. rewrite length_map in L. lia.
  - unfold count_distinct.
    pose proof (NoDup_incl_length (NoDup_nodup string_dec (map text (d :: rest)))
                  (fun x H => proj1 (nodup_In string_dec _ x) H)) as L.
    rewrite length_map in L.
    assert (N : In (text d) (nodup string_dec (map text (d :: rest))))
      by (apply nodup_In; now left).
    destruct (nodup string_dec (map text (d :: rest))); [contradiction|].
    unfold len in *. simpl in *. lia.
Qed.

(** X11.  In the statistics of a store, every confidence lies between the
    reported minimum and maximum, every text length and every timestamp
    likewise; each bound is the value of some detection held, and the
    duration is the end minus the start and is not negative. *)
Theorem get_statistics_bounds (w : JsonWriter) :
  match get_statistics w with
  | NoDataYet => True
  | StatsOf st =>
      (forall d, In d (data w) ->
         (confidence_min (confidence_stats st) <= confidence d
          <= confidence_max (confidence_stats st))%Q
         /\ text_length_min (text_length_stats st) <= text_length d
            <= text_length_max (text_length_stats st)
         /\ (time_start (time_range st) <= timestamp d
             <= time_end (time_range st))%Q)
      /\ In (confidence_min (confidence_stats st)) (map confidence (data w))
      /\ In (confidence_max (confidence_stats st)) (map confidence (data w))
      /\ In (time_start (time_range st)) (map timestamp (data w))
      /\ In (time_end (time_range st)) (map timestamp (data w))
      /\ time_duration (time_range st)
         = (time_end (time_range st) - time_start (time_range st))%Q
      /\ (0 <= time_duration (time_range st))%Q
  end.
Proof.
  unfold get_statistics. destruct (data w) as [|d0 rest]; [exact I|].
  cbn [confidence_stats text_length_stats time_range confidence_min
       confidence_max text_length_min text_length_max time_start time_end
       time_duration].
  destruct (min_of_spec (map confidence rest) (confidence d0)) as (A1 & A2 & A3).
  destruct (max_of_spec (map confidence rest) (confidence d0)) as (B1 & B2 & B3).
  destruct (min_of_spec (map timestamp rest) (timestamp d0)) as (C1 & C2 & C3).
  destruct (max_of_spec (map timestamp rest) (timestamp d0)) as (D1 & D2 & D3).
  destruct (fold_min_spec (map text_length rest) (text_length d0)) as (E1 & E2 & _).
  destruct (fold_max_spec (map text_length rest) (text_length d0)) as (F1 & F2 & _).
  split; [|repeat split; try assumption; lra].
  intros d [<-|Hd].
  - repeat split; assumption.
  - repeat split;
      first [ apply A2 | apply B2 | apply C2 | apply D2 | apply E2 | apply F2 ];
      now apply in_map.
Qed.

(** X12.  After [filter_by_confidence c] the minimum confidence of the
    statistics is at least [c]. *)
Theorem get_statistics_after_filter (w : JsonWriter) (c : Q) :
  match get_statistics (fst (filter_by_confidence w c)) with
  | NoDataYet => True
  | StatsOf st => (c <= confidence_min (confidence_stats st))%Q
  end.
Proof.
  pose proof (filter_by_confidence_data w c) as D.
  unfold get_statistics in *.
  destruct (data (fst (filter_by_confidence w c))) as [|d0 rest] eqn:E;
    [exact I|].
  cbn [confidence_stats confidence_min].
  destruct (min_of_spec (map confidence rest) (confidence d0)) as (_ & _ & A).
  change (confidence d0 :: map confidence rest)
    with (map confidence (d0 :: rest)) in A.
  apply in_map_iff in A as (d & <- & Hd).
  rewrite D in Hd. apply filter_In in Hd as [_ Hd]. now apply ge_true.
Qed.

(** ** FrameExtractor: what a sample carries *)

Section Samples.

Variable Frame : Type.
Variable videos : string -> option (Extractor.Video Frame).

Lemma iter_loop_of_source (s : Z) (p : list (Frame * Q)) :
  Forall (sample_of_source p) (Extractor.iter_loop Frame s p 0).
Proof.
  induction p as [|[f t] p IH] using rev_ind; [constructor|].
  rewrite iter_loop_snoc. apply Forall_app. split.
  - eapply Forall_impl; [|exact IH]. intros x (H0 & ms & Hn & Ht).
    split; [exact H0|]. exists ms. split; [|exact Ht].
    rewrite nth_error_app1; [exact Hn|].
    apply nth_error_Some. congruence.
  - rewrite Z.add_0_l. destruct (len p mod s =? 0); constructor; [|constructor].
    unfold sample_of_source, sample_index, sample_frame, sample_timestamp, len.
    cbn [fst snd]. split; [lia|]. exists t. split; [|reflexivity].
    rewrite Nat2Z.id, nth_error_app2 by lia. now rewrite Nat.sub_diag.
Qed.

Lemma iter_loop_every_frame (p : list (Frame * Q)) : forall i,
  map sample_frame (Extractor.iter_loop Frame 1 p i) = map fst p.
Proof.
  induction p as [|[f t] p IH]; intro i; [reflexivity|].
  cbn [Extractor.iter_loop]. rewrite Z.mod_1_r. cbn. now rewrite IH.
Qed.

End Samples.

(** X13.  Every sample a new extractor yields is the frame found at the
    sample's index in the file, and its timestamp is the playback position
    the source reported for this frame, in seconds. *)
Theorem samples_come_from_the_source (Frame : Type)
    (videos : string -> option (Extractor.Video Frame))
    (path : string) (s : Z) (v : Extractor.Video Frame) :
  videos path = Some v ->
  exists self self' samples,
    Extractor.init Frame videos path s = Extractor.Ok self
    /\ Extractor.iter Frame videos self = Extractor.Ok (samples, self')
    /\ Forall (sample_of_source (Extractor.video_frames Frame v)) samples.
Proof.
  intro Hv.
  destruct (init_opens Frame videos path s v Hv) as (fps & n & dur & Hinit).
  eexists. eexists. eexists.
  split; [exact Hinit|]. split; [now apply iter_opened|].
  apply iter_loop_of_source.
Qed.

Lemma samples_come_from_the_source_witness :
  exists self self' samples,
    Extractor.init nat one_clip "clip.mp4" 1 = Extractor.Ok self
    /\ Extractor.iter nat one_clip self = Extractor.Ok (samples, self')
    /\ Forall (sample_of_source [(0%nat, 0%Q); (1%nat, 40%Q)]) samples.
Proof.
  apply (samples_come_from_the_source nat one_clip "clip.mp4" 1
           (Extractor.mkVideo nat 25 2 [(0%nat, 0%Q); (1%nat, 40%Q)])).
  reflexivity.
Defined.

(** X14.  A step of 1 or less, zero and negative steps included, is taken
    as 1: the extractor yields every frame of the file, in order, with the
    indices 0, 1, 2, ... *)
Theorem step_below_one_yields_every_frame (Frame : Type)
    (videos : string -> option (Extractor.Video Frame))
    (path : string) (s : Z) (v : Extractor.Video Frame) :
  s <= 1 ->
  videos path = Some v ->
  exists self self' samples,
    Extractor.init Frame videos path s = Extractor.Ok self
    /\ Extractor.iter Frame videos self = Extractor.Ok (samples, self')
    /\ map sample_frame samples = map fst (Extractor.video_frames Frame v)
    /\ map sample_index samples
       = map Z.of_nat (seq 0 (length (Extractor.video_frames Frame v))).
Proof.
  intros Hs Hv.
  destruct (init_opens Frame videos path s v Hv) as (fps & n & dur & Hinit).
  eexists. eexists. eexists.
  split; [exact Hinit|]. split; [now apply iter_opened|].
  cbn [Extractor.pending]. rewrite Z.max_l by lia. split.
  - apply iter_loop_every_frame.
  - rewrite iter_loop_indices by lia.
    unfold ceil_div, len. rewrite Z.add_simpl_r, Z.div_1_r, Nat2Z.id.
    apply map_ext. intro k. lia.
Qed.

Lemma step_below_one_yields_every_frame_witness :
  exists self self' samples,
    Extractor.init nat one_clip "clip.mp4" (-3) = Extractor.Ok self
    /\ Extractor.iter nat one_clip self = Extractor.Ok (samples, self')
    /\ map sample_frame samples = map fst [(0%nat, 0%Q); (1%nat, 40%Q)]
    /\ map sample_index samples = map Z.of_nat (seq 0 2).
Proof.
  apply (step_below_one_yields_every_frame nat one_clip "clip.mp4" (-3)
           (Extractor.mkVideo nat 25 2 [(0%nat, 0%Q); (1%nat, 40%Q)])).
  - lia.
  - reflexivity.
Defined.

(** ** recognize: what it yields *)

Lemma gate_encloses (poly : Paddle.Poly) (txt : string) (score : Q) r :
  In r (Paddle.gate poly txt score) -> encloses (raw_box r) poly.
Proof.
  unfold Paddle.gate.
  destruct (is_empty txt || lt score (30 # 100)); [contradiction|].
  intros [<- | []]. unfold raw_box, encloses. cbn [fst snd].
  destruct (min_of_spec (map fst (Paddle.corners poly)) (fst (Paddle.corner poly)))
    as (A1 & A2 & _).
  destruct (max_of_spec (map fst (Paddle.corners poly)) (fst (Paddle.corner poly)))
    as (B1 & B2 & _).
  destruct (min_of_spec (map snd (Paddle.corners poly)) (snd (Paddle.corner poly)))
    as (C1 & C2 & _).
  destruct (max_of_spec (map snd (Paddle.corners poly)) (snd (Paddle.corner poly)))
    as (D1 & D2 & _).
  intros p [<-|Hp].
  - repeat split; assumption.
  - repeat split;
      first [ apply A2 | apply B2 | apply C2 | apply D2 ]; now apply in_map.
Qed.

(** Where a result of [recognize] comes from. *)
Lemma recognize_In (predicted : option (list Paddle.Page)) r :
  In r (Paddle.recognize predicted) ->
  exists pages page poly txt score,
    predicted = Some pages /\ In page pages
    /\ In (poly, (txt, score))
          (combine (Paddle.dt_polys (Paddle.page_res page))
             (combine (Paddle.rec_texts (Paddle.page_res page))
                      (Paddle.rec_scores (Paddle.page_res page))))
    /\ In r (Paddle.gate poly txt score).
Proof.
  destruct predicted as [pages|]; [|contradiction].
  cbn [Paddle.recognize]. intro H.
  apply in_flat_map in H as (page & Hpage & H).
  unfold Paddle.recognize_page in H.
  apply in_flat_map in H as ([poly [txt score]] & Ht & H).
  exists pages, page, poly, txt, score. auto.
Qed.

(** X15.  Every item [recognize] yields has a score of at least 0.30 and
    carries the trimmed form of a recognised text that was not the empty
    string; text and score stand at the same place of their page's lists. *)
Theorem recognize_yields_gated_items (predicted : option (list Paddle.Page)) r :
  In r (Paddle.recognize predicted) ->
  (30 # 100 <= raw_score r)%Q
  /\ strip (raw_text r) = raw_text r
  /\ exists pages page txt,
       predicted = Some pages /\ In page pages
       /\ In (txt, raw_score r)
             (combine (Paddle.rec_texts (Paddle.page_res page))
                      (Paddle.rec_scores (Paddle.page_res page)))
       /\ txt <> ""%string
       /\ raw_text r = strip txt.
Proof.
  intro H.
  destruct (recognize_In predicted r H)
    as (pages & page & poly & txt & score & Hp & Hpage & Hc & Hg).
  destruct (gate_yields poly txt score r Hg) as (Ht & Hs & Hx & Hr).
  unfold raw_score, raw_text. rewrite Hx, Hr.
  split; [exact Hs|]. split; [apply strip_idempotent|].
  exists pages, page, txt. repeat split; try assumption.
  now apply in_combine_r in Hc.
Qed.

Lemma recognize_yields_gated_items_witness :
  (30 # 100 <= raw_score hello_item)%Q
  /\ strip (raw_text hello_item)
     = raw_text hello_item
  /\ exists pages page txt,
       Some [hello_page] = Some pages /\ In page pages
       /\ In (txt, raw_score hello_item)
             (combine (Paddle.rec_texts (Paddle.page_res page))
                      (Paddle.rec_scores (Paddle.page_res page)))
       /\ txt <> ""%string
       /\ raw_text hello_item = strip txt.
Proof.
  apply (recognize_yields_gated_items (Some [hello_page])
           hello_item).
  left. reflexivity.
Defined.

(** X16.  The box of every item [recognize] yields encloses the polygon it
    was computed from: each corner lies between its left and right and
    between its top and bottom, so the box is never inverted. *)
Theorem recognize_box_encloses_polygon (predicted : option (list Paddle.Page)) r :
  In r (Paddle.recognize predicted) ->
  exists pages page poly,
    predicted = Some pages /\ In page pages
    /\ In poly (Paddle.dt_polys (Paddle.page_res page))
    /\ encloses (raw_box r) poly
    /\ (let '(x1, y1, x2, y2) := raw_box r in (x1 <= x2)%Q /\ (y1 <= y2)%Q).
Proof.
  intro H.
  destruct (recognize_In predicted r H)
    as (pages & page & poly & txt & score & Hp & Hpage & Hc & Hg).
  pose proof (gate_encloses poly txt score r Hg) as E.
  exists pages, page, poly. repeat split; try assumption.
  - now apply in_combine_l in Hc.
  - unfold encloses in E. destruct (raw_box r) as [[[x1 y1] x2] y2].
    destruct (E (Paddle.corner poly) (or_introl eq_refl)) as [Hx Hy].
    split; lra.
Qed.

Lemma recognize_box_encloses_polygon_witness :
  exists pages page poly,
    Some [hello_page] = Some pages /\ In page pages
    /\ In poly (Paddle.dt_polys (Paddle.page_res page))
    /\ encloses (raw_box hello_item) poly
    /\ (let '(x1, y1, x2, y2) := raw_box hello_item
        in (x1 <= x2)%Q /\ (y1 <= y2)%Q).
Proof.
  apply (recognize_box_encloses_polygon (Some [hello_page])
           hello_item).
  left. reflexivity.
Defined.

Lemma flat_map_length_le {A B} (f : A -> list B) (l : list A) :
  (forall x, (length (f x) <= 1)%nat) ->
  (length (flat_map f l) <= length l)%nat.
Proof.
  intro H. induction l as [|x l IH]; simpl; [lia|].
  rewrite length_app. specialize (H x). lia.
Qed.

(** X17.  [recognize] yields nothing when the engine is missing or its call
    fails, and for a page at most one item per complete triple of polygon,
    text and score: what one of the three lists has beyond the shortest is
    ignored. *)
Theorem recognize_page_count (page : Paddle.Page) :
  Paddle.recognize None = []
  /\ len (Paddle.recognize_page page)
     <= Z.min (len (Paddle.dt_polys (Paddle.page_res page)))
          (Z.min (len (Paddle.rec_texts (Paddle.page_res page)))
                 (len (Paddle.rec_scores (Paddle.page_res page)))).
Proof.
  split; [reflexivity|].
  unfold Paddle.recognize_page, len.
  set (res := Paddle.page_res page).
  pose proof (flat_map_length_le
                (fun '(poly, (txt, score)) => Paddle.gate poly txt score)
                (combine (Paddle.dt_polys res)
                   (combine (Paddle.rec_texts res) (Paddle.rec_scores res)))) as L.
  rewrite !length_combine in L.
  assert (G : forall x : Paddle.Poly * (string * Q),
            (length (let '(poly, (txt, score)) := x in
                     Paddle.gate poly txt score) <= 1)%nat).
  { intros [poly [txt score]]. unfold Paddle.gate.
    destruct (is_empty txt || lt score (30 # 100)); simpl; lia. }
  specialize (L G). lia.
Qed.

(** ** simple_db.py *)

Lemma strip_of_empty (s : string) : is_empty s = true -> strip s = ""%string.
Proof. destruct s; [reflexivity | discriminate]. Qed.

(** X18.  [insert_detection] leaves the table alone when the text trims to
    the empty string; otherwise it appends one row that carries the trimmed
    text.  So a table whose rows all have a non-empty trimmed text keeps
    this property. *)
Theorem insert_detection_never_blank (table : list SimpleDb.Row)
    (file text : string) (ts : Q) (conf : option Q) (topic : option string) :
  (strip text = ""%string ->
     SimpleDb.insert_detection table file text ts conf topic = table)
  /\ (strip text <> ""%string ->
        SimpleDb.insert_detection table file text ts conf topic
        = table ++ [SimpleDb.mkRow file (strip text) topic
                      (SimpleDb.to_mmss (Some ts)) conf])
  /\ (Forall row_has_text table ->
        Forall row_has_text
          (SimpleDb.insert_detection table file text ts conf topic)).
Proof.
  unfold SimpleDb.insert_detection.
  destruct (is_empty text) eqn:E.
  - apply strip_of_empty in E. cbn [orb]. repeat split; auto. congruence.
  - cbn [orb]. destruct (String.eqb (strip text) "") eqn:S.
    + apply String.eqb_eq in S. repeat split; auto. congruence.
    + apply String.eqb_neq in S. repeat split; auto; try congruence.
      intro H. apply Forall_app. split; [exact H|].
      constructor; [|constructor]. split; [exact S | apply strip_idempotent].
Qed.

Lemma insert_detection_never_blank_witness :
  SimpleDb.insert_detection [] "clip.mp4" "   " 1 None None = []
  /\ SimpleDb.insert_detection [] "clip.mp4" " hello " 61 (Some (9 # 10)) None
     = [] ++ [SimpleDb.mkRow "clip.mp4" (strip " hello ") None
                (SimpleDb.to_mmss (Some 61%Q)) (Some (9 # 10))]
  /\ Forall row_has_text
       (SimpleDb.insert_detection [] "clip.mp4" " hello " 61 (Some (9 # 10)) None).
Proof.
  split; [|split].
  - apply (insert_detection_never_blank [] "clip.mp4" "   " 1 None None).
    reflexivity.
  - apply (insert_detection_never_blank [] "clip.mp4" " hello " 61
             (Some (9 # 10)) None).
    discriminate.
  - apply (insert_detection_never_blank [] "clip.mp4" " hello " 61
             (Some (9 # 10)) None).
    constructor.
Defined.

Lemma string_app_assoc (a b c : string) :
  ((a ++ b) ++ c = a ++ (b ++ c))%string.
Proof. induction a as [|x a IH]; simpl; [reflexivity | now rewrite IH]. Qed.

(** X19.  For a stored timestamp that is not negative, the [mm:ss] string
    written to the table is the stamp of the grouped transcript without its
    brackets. *)
Theorem to_mmss_agrees_with_stamp (k : Z) :
  0 <= k ->
  ("[" ++ SimpleDb.to_mmss (Some (Qmake k 1000)) ++ "]")%string
  = _format_mmss (Some (Qmake k 1000)) false.
Proof.
  intro H. rewrite format_mmss_floor.
  unfold SimpleDb.to_mmss, floor_stamp, int_of. cbn [Qnum Qden Qfloor].
  rewrite Z.quot_div_nonneg by lia.
  now rewrite !string_app_assoc.
Qed.

Lemma to_mmss_agrees_with_stamp_witness :
  ("[" ++ SimpleDb.to_mmss (Some (Qmake 61999 1000)) ++ "]")%string
  = _format_mmss (Some (Qmake 61999 1000)) false.
Proof. apply (to_mmss_agrees_with_stamp 61999). lia. Defined.

(** ** add_metadata *)

Lemma dict_get_set_same (key value : string) (d : list (string * string)) :
  dict_get key (dict_set key value d) = Some value.
Proof.
  induction d as [|[k v] d IH]; simpl.
  - now rewrite String.eqb_refl.
  - destruct (String.eqb k key) eqn:E; simpl; rewrite E; [reflexivity | exact IH].
Qed.

Lemma dict_get_set_other (key key' value : string) (d : list (string * string)) :
  key' <> key -> dict_get key' (dict_set key value d) = dict_get key' d.
Proof.
  intro N. induction d as [|[k v] d IH]; simpl.
  - destruct (String.eqb key key') eqn:E; [|reflexivity].
    apply String.eqb_eq in E. congruence.
  - destruct (String.eqb k key) eqn:E; simpl.
    + apply String.eqb_eq in E. subst k.
      destruct (String.eqb key key') eqn:E'; [|reflexivity].
      apply String.eqb_eq in E'. congruence.
    + now rewrite IH.
Qed.

(** X20.  [add_metadata] records the value under its key, replacing an
    older value of the same key and leaving the other keys as they were;
    the detections and the recorded count are not touched. *)
Theorem add_metadata_records (w : JsonWriter) (key value : string) :
  let w' := add_metadata w key value in
  dict_get key (processing_info (metadata w')) = Some value
  /\ (forall key', key' <> key ->
        dict_get key' (processing_info (metadata w'))
        = dict_get key' (processing_info (metadata w)))
  /\ data w' = data w
  /\ total_detections (metadata w') = total_detections (metadata w).
Proof.
  cbv zeta. unfold add_metadata. cbn [metadata processing_info data total_detections].
  split; [apply dict_get_set_same|].
  split; [intros; now apply dict_get_set_other|].
  split; reflexivity.
Qed.

Lemma add_metadata_records_witness :
  dict_get "fps"
    (processing_info (metadata (add_metadata (add_metadata new_store "step" "15")
                                             "step" "30")))
  = dict_get "fps" (processing_info (metadata (add_metadata new_store "step" "15"))).
Proof.
  apply (add_metadata_records (add_metadata new_store "step" "15") "step" "30").
  discriminate.
Defined.

(** ** The two text exports *)

Lemma insert_by_timestamp_length (x : Detection) (l : list Detection) :
  length (insert_by_timestamp x l) = S (length l).
Proof.
  induction l as [|y l IH]; simpl; [reflexivity|].
  destruct (lt (timestamp y) (timestamp x)); simpl; [now rewrite IH | reflexivity].
Qed.

Lemma sorted_by_timestamp_length (l : list Detection) :
  length (sorted_by_timestamp l) = length l.
Proof.
  induction l as [|x l IH]; simpl; [reflexivity|].
  now rewrite insert_by_timestamp_length, IH.
Qed.

Lemma bucket_append_length (t : Q) (txt : string) (b : Buckets) :
  length (bucket_append t txt b) = length b.
Proof.
  induction b as [|[k v] b IH]; simpl; [reflexivity|].
  destruct (Qeq_bool k t); simpl; [reflexivity | now rewrite IH].
Qed.

Lemma bucket_step_length (b : Buckets) (d : Detection) :
  (length (bucket_step b d)
   <= length b + (if nonblank d then 1 else 0))%nat.
Proof.
  unfold bucket_step, nonblank.
  destruct (is_empty (strip (text d))); cbn [negb]; [lia|].
  rewrite bucket_append_length.
  destruct (bucket_mem (timestamp d) b); [lia|].
  rewrite length_app. simpl. lia.
Qed.

Lemma fill_buckets_length (l : list Detection) : forall b,
  (length (fold_left bucket_step l b)
   <= length b + length (filter nonblank l))%nat.
Proof.
  induction l as [|d l IH]; intro b; simpl; [lia|].
  specialize (IH (bucket_step b d)).
  pose proof (bucket_step_length b d) as S.
  destruct (nonblank d); simpl; lia.
Qed.

(** X21.  [export_text_only] writes one line per detection, those with an
    empty text included.  [export_grouped_text] writes at most one line per
    detection with a non-empty text, so never more lines than
    [export_text_only]. *)
Theorem export_line_counts (format_fixed : nat -> nat -> Q -> string)
    (w : JsonWriter) (sep : string) (show_ms : bool) :
  len (export_text_only format_fixed w) = len (data w)
  /\ len (export_grouped_text w sep show_ms) <= len (filter nonblank (data w))
  /\ len (export_grouped_text w sep show_ms)
     <= len (export_text_only format_fixed w).
Proof.
  assert (A : len (export_text_only format_fixed w) = len (data w)).
  { unfold export_text_only, len.
    now rewrite length_map, sorted_by_timestamp_length. }
  assert (B : len (export_grouped_text w sep show_ms)
              <= len (filter nonblank (data w))).
  { unfold export_grouped_text, fill_buckets, len. rewrite length_map.
    pose proof (fill_buckets_length (sorted_by_timestamp (data w)) []) as L.
    simpl in L.
    assert (F : length (filter nonblank (sorted_by_timestamp (data w)))
                = length (filter nonblank (data w))).
    { clear. induction (data w) as [|x l IH]; [reflexivity|].
      cbn [sorted_by_timestamp fold_right]. fold (sorted_by_timestamp l).
      assert (G : forall s, length (filter nonblank (insert_by_timestamp x s))
                            = length (filter nonblank (x :: s))).
      { induction s as [|y s IHs]; [reflexivity|]. cbn [insert_by_timestamp].
        destruct (lt (timestamp y) (timestamp x)); [|reflexivity].
        cbn [filter] in *. destruct (nonblank y), (nonblank x);
          simpl in *; rewrite IHs; reflexivity. }
      rewrite G. cbn [filter]. destruct (nonblank x); simpl; now rewrite IH. }
    lia. }
  split; [exact A|]. split; [exact B|].
  rewrite A. pose proof (len_filter_le nonblank (data w)). lia.
Qed.

(** ** int and round *)






(** ** run_pipeline *)



Section PipelineFacts.

Variable Frame : Type.
Variable videos : string -> option (Extractor.Video Frame).
Variable predict : Frame -> option (list Paddle.Page).
Variable now : string.
Variable lower : string -> string.
Variable ratio : string -> string -> Q.

Local Abbreviation process := (Pipeline.process_sample Frame predict).




End PipelineFacts.







Example run_pipeline_hello :
  exists p,
    Pipeline.run_pipeline nat one_clip hello_predict "t" "clip.mp4" "out.json" 1
    = Extractor.Ok (p, ["[00:00] - hello"%string])
    /\ Pipeline.frame_count p = 2 /\ Pipeline.text_count p = 1.
Proof. eexists. split; [reflexivity|]. split; reflexivity. Qed.

(** ** cli.py *)

Section CliFacts.

Variable Frame : Type.
Variable videos : string -> option (Extractor.Video Frame).
Variable predict : Frame -> option (list Paddle.Page).
Variable now : string.
Variable path_exists : string -> bool.
Variable dirname : string -> string.
Variable makedirs : string -> bool.



End CliFacts.


Example main_rejects_step_zero :
  Cli.main nat one_clip hello_predict "t" (fun _ => true) (fun _ => ""%string)
           (fun _ => true) (clip_args 0) = 1
  /\ Cli.main nat one_clip hello_predict "t" (fun _ => true) (fun _ => ""%string)
              (fun _ => true) (clip_args 15) = 0.
Proof. split; reflexivity. Qed.
